(** * remio.camio: the threaded camera engine and its registry

    A shallow embedding of [remio/camio.py] (classes [Camera] and [Cameras]).
    Every method is a function in a small monad that threads the object's
    state, records the side effects in a trace, and can end in three ways:
    it returns, it raises a Python exception, or it blocks on a wait
    primitive of [threading] / [queue]. *)

From Stdlib Require Import ZArith QArith Lia.
From stdpp Require Import base option list strings gmap.

Local Open Scope Z_scope.

(** ** The Python runtime, as far as the engine uses it *)

(** Built-in exceptions that the modelled library calls can raise. *)
Inductive Exn : Type :=
| RuntimeError        (* Thread.start twice, Thread.join before start, Lock.release unlocked *)
| ValueError          (* time.sleep(<0), Queue.get(timeout<0), np.zeros(<0), bad unpacking *)
| Cv2Error            (* cv2.error: cv2.resize to a size that is not two positive integers *)
| AttributeError      (* tuple.append, method call on None *)
| ZeroDivisionError   (* 1 / 0 *)
| KeyError            (* dict lookup of a missing key *)
| Empty.              (* queue.Empty *)

(** The three [threading.Event] objects of a camera. *)
Inductive EventName : Type := Running | PauseEvent | ReadEvent.

(** Images are kept symbolic: what cv2 and numpy compute is external, only
    which call produced a value matters here. *)
Inductive Image : Type :=
| Raw (n : nat)                                   (* n-th frame delivered by the capture *)
| Zeros (shape : list Z)                          (* np.zeros(shape, dtype=np.uint8) *)
| Resize (im : Image) (dsize : list Z)            (* cv2.resize(im, dsize) *)
| Flip (im : Image) (flipCode : Z)                (* cv2.flip(im, flipCode) *)
| PutText (im : Image) (text : string) (origin : Z * Z) (font : Z)
          (fontScale : Q) (fontColor : list Z) (thickness : Z).

(** Places where a thread can be suspended. *)
Inductive Wait : Type :=
| WaitLock                         (* Lock.acquire on a held lock *)
| WaitEvent (e : EventName)        (* Event.wait on a cleared event *)
| WaitPut (item : option Image)    (* Queue.put(item) on a full queue *)
| WaitGet                          (* Queue.get(timeout=None) on an empty queue *)
| WaitJoin.                        (* Thread.join on a thread that is still alive *)

(** Payload of an emitted event. *)
Inductive Payload : Type :=
| FrameOf (name : string) (frame : option Image)   (* {self.name: self.frame} *)
| NameOf (name : string).                          (* self.name *)

(** Observable side effects, in program order. *)
Inductive Action : Type :=
| EventSet (e : EventName)
| EventClear (e : EventName)
| EventWait (e : EventName)
| LockAcquire
| LockRelease
| Sleep (seconds : Q)
| VideoCaptureOpen
| Print
| DeviceRead (ok : bool)
| DeviceRelease
| Emit (topic : string) (payload : Payload)
| QueuePut (item : option Image)
| QueueGet (item : option Image)
| ThreadStart.

Definition Trace : Type := list Action.

(** Outcome of running a method on a state: every outcome carries the state
    reached and the effects performed up to that point. *)
Inductive Result (S A : Type) : Type :=
| Ok (a : A) (s : S) (tr : Trace)
| Raise (e : Exn) (s : S) (tr : Trace)
| Block (w : Wait) (s : S) (tr : Trace).

Arguments Ok {S A} a s tr.
Arguments Raise {S A} e s tr.
Arguments Block {S A} w s tr.

Definition M (S A : Type) : Type := S → Result S A.

Definition prepend {S A} (tr : Trace) (r : Result S A) : Result S A :=
  match r with
  | Ok a s tr' => Ok a s (tr ++ tr')
  | Raise e s tr' => Raise e s (tr ++ tr')
  | Block w s tr' => Block w s (tr ++ tr')
  end.

Global Instance M_ret {S} : MRet (M S) := λ A a s, Ok a s [].

Global Instance M_bind {S} : MBind (M S) := λ A B f m s,
  match m s with
  | Ok a s' tr => prepend tr (f a s')
  | Raise e s' tr => Raise e s' tr
  | Block w s' tr => Block w s' tr
  end.

Definition result_state {S A} (r : Result S A) : S :=
  match r with Ok _ s _ | Raise _ s _ | Block _ s _ => s end.

Definition result_trace {S A} (r : Result S A) : Trace :=
  match r with Ok _ _ tr | Raise _ _ tr | Block _ _ tr => tr end.

Definition get {S} : M S S := λ s, Ok s s [].
Definition gets {S A} (f : S → A) : M S A := λ s, Ok (f s) s [].
Definition modify {S} (f : S → S) : M S unit := λ s, Ok tt (f s) [].
Definition tell {S} (tr : Trace) : M S unit := λ s, Ok tt s tr.
Definition raise {S A} (e : Exn) : M S A := λ s, Raise e s [].
Definition block {S A} (w : Wait) : M S A := λ s, Block w s [].
Definition when {S} (b : bool) (m : M S unit) : M S unit :=
  if b then m else mret tt.

(** [time.sleep]: a negative length raises [ValueError]. *)
Definition time_sleep {S} (seconds : Q) : M S unit :=
  if Qle_bool 0 seconds then tell [Sleep seconds] else raise ValueError.

(** Python's [1 / n] for an integer [n], with exact rationals standing for
    the floats. *)
Definition one_over {S} (n : Z) : M S Q :=
  if n =? 0 then raise ZeroDivisionError else mret (1 / inject_Z n)%Q.

(** Lists and tuples of integers (the [size] arguments). *)
Inductive PySeq : Type :=
| PyList (xs : list Z)
| PyTuple (xs : list Z).

Definition elems (sq : PySeq) : list Z :=
  match sq with PyList xs | PyTuple xs => xs end.

Definition len (sq : PySeq) : Z := Z.of_nat (length (elems sq)).

(** [sq[::-1]]: a fresh sequence of the same type. *)
Definition reversed (sq : PySeq) : PySeq :=
  match sq with
  | PyList xs => PyList (reverse xs)
  | PyTuple xs => PyTuple (reverse xs)
  end.

(** [sq[:n]] *)
Definition slice_to (n : nat) (sq : PySeq) : PySeq :=
  match sq with
  | PyList xs => PyList (take n xs)
  | PyTuple xs => PyTuple (take n xs)
  end.

(** [sq.append(x)]: lists grow in place, tuples have no [append]. *)
Definition append {S} (sq : PySeq) (x : Z) : M S PySeq :=
  match sq with
  | PyList xs => mret (PyList (xs ++ [x]))
  | PyTuple _ => raise AttributeError
  end.

(** [np.zeros(shape, dtype=np.uint8)]: negative dimensions are refused. *)
Definition np_zeros {S} (shape : PySeq) : M S Image :=
  if forallb (Z.leb 0) (elems shape) then mret (Zeros (elems shape))
  else raise ValueError.

(** [cv2.resize(frame, dsize)]: [dsize] has to be two positive integers. *)
Definition cv2_resize {S} (frame : Image) (dsize : PySeq) : M S Image :=
  match elems dsize with
  | [w; h] => if (0 <? w) && (0 <? h) then mret (Resize frame [w; h]) else raise Cv2Error
  | _ => raise Cv2Error
  end.

(** [h, w, _ = size] *)
Definition unpack3 {S} (sq : PySeq) : M S (Z * Z) :=
  match elems sq with
  | [h; w; _] => mret (h, w)
  | _ => raise ValueError
  end.

(** [queue.Queue(maxsize)]: FIFO, unbounded when [maxsize <= 0]. *)
Record Queue : Type := mkQueue { maxsize : Z; items : list (option Image) }.

Definition full (q : Queue) : bool :=
  (0 <? maxsize q) && (maxsize q <=? Z.of_nat (length (items q))).

(** What one [read()] of a capture handle meets: a frame, or a failure after
    which the handle may or may not still report itself opened. *)
Inductive Grab : Type :=
| Delivers (im : Image)
| Fails (still_opened : bool).

(** [cv2.VideoCapture]: whether it is opened and what its next reads will
    meet (a handle whose stream is exhausted fails and stays as it is). *)
Record VideoCapture : Type :=
  mkCapture { isOpened : bool; stream : list Grab }.

(** What constructing [cv2.VideoCapture(src)] does at a given attempt. *)
Inductive OpenAttempt : Type :=
| OpenError                        (* cv2.error is raised *)
| OpenHandle (h : VideoCapture).   (* a handle, opened or not *)

(** Where the control-loop thread stands. *)
Inductive Pc : Type :=
| AtEntry                (* spawned, [run] not entered yet *)
| AtLoop                 (* at the [while self.running.is_set()] test *)
| Blocked (w : Wait).    (* suspended inside the loop body *)

Inductive ThreadStatus : Type :=
| NotStarted
| Started (pc : Pc)
| Finished               (* [run] returned *)
| Crashed (e : Exn).     (* [run] ended by an uncaught exception *)

(** ** class Camera *)

Module Camera.

(** The attributes of a [Camera] object. The [encoder] object is left out:
    no method of this file calls it. *)
Record t : Type := mk {
  src : Z + string;
  name : string;
  frame : option Image;
  fps : option Z;
  verbose : bool;
  size : option PySeq;
  flipX : bool;
  flipY : bool;
  backgroundIsEnabled : bool;
  background : option Image;
  processing : option (Image → Image);   (* the user transform, with its keyword parameters applied *)
  queueModeEnabled : bool;
  queue : Queue;   (* Queue(maxsize=queueMaxSize) *)
  frame64 : option string;   (* secondary encoding of the current frame *)
  encoderIsEnabled : bool;
  delay : Q;
  defaultDelay : Q;
  reconnectDelay : Q;
  defaultSize : PySeq;
  emitterIsEnabled : bool;
  device : option VideoCapture;   (* the capture handle, None until loadDevice succeeds *)
  thread : ThreadStatus;   (* the control-loop thread created in __init__ *)
  running : bool;   (* threading.Event: set = the loop may go on *)
  pauseEvent : bool;   (* threading.Event: set = not paused *)
  readEvent : bool;   (* threading.Event: set = no acquisition or reconnect in progress *)
  readLock : bool;   (* threading.Lock: true = held *)
  sources : list OpenAttempt   (* environment: what the coming cv2.VideoCapture(src) calls yield *)
}.

(** Attribute assignment, [self.x = v], one setter per attribute that some
    method assigns. Nothing assigns [frame64] after construction. *)
Definition set_frame (v : option Image) (s : t) : t :=
  {| src := src s; name := name s; frame := v; fps := fps s; verbose := verbose s; size
     := size s; flipX := flipX s; flipY := flipY s; backgroundIsEnabled :=
     backgroundIsEnabled s; background := background s; processing := processing s;
     queueModeEnabled := queueModeEnabled s; queue := queue s; frame64 := frame64 s;
     encoderIsEnabled := encoderIsEnabled s; delay := delay s; defaultDelay :=
     defaultDelay s; reconnectDelay := reconnectDelay s; defaultSize := defaultSize s;
     emitterIsEnabled := emitterIsEnabled s; device := device s; thread := thread s;
     running := running s; pauseEvent := pauseEvent s; readEvent := readEvent s;
     readLock := readLock s; sources := sources s |}.
Definition set_fps (v : option Z) (s : t) : t :=
  {| src := src s; name := name s; frame := frame s; fps := v; verbose := verbose s;
     size := size s; flipX := flipX s; flipY := flipY s; backgroundIsEnabled :=
     backgroundIsEnabled s; background := background s; processing := processing s;
     queueModeEnabled := queueModeEnabled s; queue := queue s; frame64 := frame64 s;
     encoderIsEnabled := encoderIsEnabled s; delay := delay s; defaultDelay :=
     defaultDelay s; reconnectDelay := reconnectDelay s; defaultSize := defaultSize s;
     emitterIsEnabled := emitterIsEnabled s; device := device s; thread := thread s;
     running := running s; pauseEvent := pauseEvent s; readEvent := readEvent s;
     readLock := readLock s; sources := sources s |}.
Definition set_backgroundIsEnabled (v : bool) (s : t) : t :=
  {| src := src s; name := name s; frame := frame s; fps := fps s; verbose := verbose s;
     size := size s; flipX := flipX s; flipY := flipY s; backgroundIsEnabled := v;
     background := background s; processing := processing s; queueModeEnabled :=
     queueModeEnabled s; queue := queue s; frame64 := frame64 s; encoderIsEnabled :=
     encoderIsEnabled s; delay := delay s; defaultDelay := defaultDelay s;
     reconnectDelay := reconnectDelay s; defaultSize := defaultSize s; emitterIsEnabled
     := emitterIsEnabled s; device := device s; thread := thread s; running := running
     s; pauseEvent := pauseEvent s; readEvent := readEvent s; readLock := readLock s;
     sources := sources s |}.
Definition set_background (v : option Image) (s : t) : t :=
  {| src := src s; name := name s; frame := frame s; fps := fps s; verbose := verbose s;
     size := size s; flipX := flipX s; flipY := flipY s; backgroundIsEnabled :=
     backgroundIsEnabled s; background := v; processing := processing s;
     queueModeEnabled := queueModeEnabled s; queue := queue s; frame64 := frame64 s;
     encoderIsEnabled := encoderIsEnabled s; delay := delay s; defaultDelay :=
     defaultDelay s; reconnectDelay := reconnectDelay s; defaultSize := defaultSize s;
     emitterIsEnabled := emitterIsEnabled s; device := device s; thread := thread s;
     running := running s; pauseEvent := pauseEvent s; readEvent := readEvent s;
     readLock := readLock s; sources := sources s |}.
Definition set_queueModeEnabled (v : bool) (s : t) : t :=
  {| src := src s; name := name s; frame := frame s; fps := fps s; verbose := verbose s;
     size := size s; flipX := flipX s; flipY := flipY s; backgroundIsEnabled :=
     backgroundIsEnabled s; background := background s; processing := processing s;
     queueModeEnabled := v; queue := queue s; frame64 := frame64 s; encoderIsEnabled :=
     encoderIsEnabled s; delay := delay s; defaultDelay := defaultDelay s;
     reconnectDelay := reconnectDelay s; defaultSize := defaultSize s; emitterIsEnabled
     := emitterIsEnabled s; device := device s; thread := thread s; running := running
     s; pauseEvent := pauseEvent s; readEvent := readEvent s; readLock := readLock s;
     sources := sources s |}.
Definition set_queue (v : Queue) (s : t) : t :=
  {| src := src s; name := name s; frame := frame s; fps := fps s; verbose := verbose s;
     size := size s; flipX := flipX s; flipY := flipY s; backgroundIsEnabled :=
     backgroundIsEnabled s; background := background s; processing := processing s;
     queueModeEnabled := queueModeEnabled s; queue := v; frame64 := frame64 s;
     encoderIsEnabled := encoderIsEnabled s; delay := delay s; defaultDelay :=
     defaultDelay s; reconnectDelay := reconnectDelay s; defaultSize := defaultSize s;
     emitterIsEnabled := emitterIsEnabled s; device := device s; thread := thread s;
     running := running s; pauseEvent := pauseEvent s; readEvent := readEvent s;
     readLock := readLock s; sources := sources s |}.
Definition set_delay (v : Q) (s : t) : t :=
  {| src := src s; name := name s; frame := frame s; fps := fps s; verbose := verbose s;
     size := size s; flipX := flipX s; flipY := flipY s; backgroundIsEnabled :=
     backgroundIsEnabled s; background := background s; processing := processing s;
     queueModeEnabled := queueModeEnabled s; queue := queue s; frame64 := frame64 s;
     encoderIsEnabled := encoderIsEnabled s; delay := v; defaultDelay := defaultDelay s;
     reconnectDelay := reconnectDelay s; defaultSize := defaultSize s; emitterIsEnabled
     := emitterIsEnabled s; device := device s; thread := thread s; running := running
     s; pauseEvent := pauseEvent s; readEvent := readEvent s; readLock := readLock s;
     sources := sources s |}.
Definition set_defaultDelay (v : Q) (s : t) : t :=
  {| src := src s; name := name s; frame := frame s; fps := fps s; verbose := verbose s;
     size := size s; flipX := flipX s; flipY := flipY s; backgroundIsEnabled :=
     backgroundIsEnabled s; background := background s; processing := processing s;
     queueModeEnabled := queueModeEnabled s; queue := queue s; frame64 := frame64 s;
     encoderIsEnabled := encoderIsEnabled s; delay := delay s; defaultDelay := v;
     reconnectDelay := reconnectDelay s; defaultSize := defaultSize s; emitterIsEnabled
     := emitterIsEnabled s; device := device s; thread := thread s; running := running
     s; pauseEvent := pauseEvent s; readEvent := readEvent s; readLock := readLock s;
     sources := sources s |}.
Definition set_device (v : option VideoCapture) (s : t) : t :=
  {| src := src s; name := name s; frame := frame s; fps := fps s; verbose := verbose s;
     size := size s; flipX := flipX s; flipY := flipY s; backgroundIsEnabled :=
     backgroundIsEnabled s; background := background s; processing := processing s;
     queueModeEnabled := queueModeEnabled s; queue := queue s; frame64 := frame64 s;
     encoderIsEnabled := encoderIsEnabled s; delay := delay s; defaultDelay :=
     defaultDelay s; reconnectDelay := reconnectDelay s; defaultSize := defaultSize s;
     emitterIsEnabled := emitterIsEnabled s; device := v; thread := thread s; running :=
     running s; pauseEvent := pauseEvent s; readEvent := readEvent s; readLock :=
     readLock s; sources := sources s |}.
Definition set_thread (v : ThreadStatus) (s : t) : t :=
  {| src := src s; name := name s; frame := frame s; fps := fps s; verbose := verbose s;
     size := size s; flipX := flipX s; flipY := flipY s; backgroundIsEnabled :=
     backgroundIsEnabled s; background := background s; processing := processing s;
     queueModeEnabled := queueModeEnabled s; queue := queue s; frame64 := frame64 s;
     encoderIsEnabled := encoderIsEnabled s; delay := delay s; defaultDelay :=
     defaultDelay s; reconnectDelay := reconnectDelay s; defaultSize := defaultSize s;
     emitterIsEnabled := emitterIsEnabled s; device := device s; thread := v; running :=
     running s; pauseEvent := pauseEvent s; readEvent := readEvent s; readLock :=
     readLock s; sources := sources s |}.
Definition set_running (v : bool) (s : t) : t :=
  {| src := src s; name := name s; frame := frame s; fps := fps s; verbose := verbose s;
     size := size s; flipX := flipX s; flipY := flipY s; backgroundIsEnabled :=
     backgroundIsEnabled s; background := background s; processing := processing s;
     queueModeEnabled := queueModeEnabled s; queue := queue s; frame64 := frame64 s;
     encoderIsEnabled := encoderIsEnabled s; delay := delay s; defaultDelay :=
     defaultDelay s; reconnectDelay := reconnectDelay s; defaultSize := defaultSize s;
     emitterIsEnabled := emitterIsEnabled s; device := device s; thread := thread s;
     running := v; pauseEvent := pauseEvent s; readEvent := readEvent s; readLock :=
     readLock s; sources := sources s |}.
Definition set_pauseEvent (v : bool) (s : t) : t :=
  {| src := src s; name := name s; frame := frame s; fps := fps s; verbose := verbose s;
     size := size s; flipX := flipX s; flipY := flipY s; backgroundIsEnabled :=
     backgroundIsEnabled s; background := background s; processing := processing s;
     queueModeEnabled := queueModeEnabled s; queue := queue s; frame64 := frame64 s;
     encoderIsEnabled := encoderIsEnabled s; delay := delay s; defaultDelay :=
     defaultDelay s; reconnectDelay := reconnectDelay s; defaultSize := defaultSize s;
     emitterIsEnabled := emitterIsEnabled s; device := device s; thread := thread s;
     running := running s; pauseEvent := v; readEvent := readEvent s; readLock :=
     readLock s; sources := sources s |}.
Definition set_readEvent (v : bool) (s : t) : t :=
  {| src := src s; name := name s; frame := frame s; fps := fps s; verbose := verbose s;
     size := size s; flipX := flipX s; flipY := flipY s; backgroundIsEnabled :=
     backgroundIsEnabled s; background := background s; processing := processing s;
     queueModeEnabled := queueModeEnabled s; queue := queue s; frame64 := frame64 s;
     encoderIsEnabled := encoderIsEnabled s; delay := delay s; defaultDelay :=
     defaultDelay s; reconnectDelay := reconnectDelay s; defaultSize := defaultSize s;
     emitterIsEnabled := emitterIsEnabled s; device := device s; thread := thread s;
     running := running s; pauseEvent := pauseEvent s; readEvent := v; readLock :=
     readLock s; sources := sources s |}.
Definition set_readLock (v : bool) (s : t) : t :=
  {| src := src s; name := name s; frame := frame s; fps := fps s; verbose := verbose s;
     size := size s; flipX := flipX s; flipY := flipY s; backgroundIsEnabled :=
     backgroundIsEnabled s; background := background s; processing := processing s;
     queueModeEnabled := queueModeEnabled s; queue := queue s; frame64 := frame64 s;
     encoderIsEnabled := encoderIsEnabled s; delay := delay s; defaultDelay :=
     defaultDelay s; reconnectDelay := reconnectDelay s; defaultSize := defaultSize s;
     emitterIsEnabled := emitterIsEnabled s; device := device s; thread := thread s;
     running := running s; pauseEvent := pauseEvent s; readEvent := readEvent s;
     readLock := v; sources := sources s |}.
Definition set_sources (v : list OpenAttempt) (s : t) : t :=
  {| src := src s; name := name s; frame := frame s; fps := fps s; verbose := verbose s;
     size := size s; flipX := flipX s; flipY := flipY s; backgroundIsEnabled :=
     backgroundIsEnabled s; background := background s; processing := processing s;
     queueModeEnabled := queueModeEnabled s; queue := queue s; frame64 := frame64 s;
     encoderIsEnabled := encoderIsEnabled s; delay := delay s; defaultDelay :=
     defaultDelay s; reconnectDelay := reconnectDelay s; defaultSize := defaultSize s;
     emitterIsEnabled := emitterIsEnabled s; device := device s; thread := thread s;
     running := running s; pauseEvent := pauseEvent s; readEvent := readEvent s;
     readLock := readLock s; sources := v |}.

(** A setter applied to an explicit record computes. *)
Arguments set_frame v !s /.
Arguments set_fps v !s /.
Arguments set_backgroundIsEnabled v !s /.
Arguments set_background v !s /.
Arguments set_queueModeEnabled v !s /.
Arguments set_queue v !s /.
Arguments set_delay v !s /.
Arguments set_defaultDelay v !s /.
Arguments set_device v !s /.
Arguments set_thread v !s /.
Arguments set_running v !s /.
Arguments set_pauseEvent v !s /.
Arguments set_readEvent v !s /.
Arguments set_readLock v !s /.
Arguments set_sources v !s /.

(** *** The primitives of [threading], [queue] and [cv2] on the object's
    own events, lock, queue and handle *)

Definition event (e : EventName) (s : t) : bool :=
  match e with
  | Running => running s
  | PauseEvent => pauseEvent s
  | ReadEvent => readEvent s
  end.

Definition set_event (e : EventName) (b : bool) : t → t :=
  match e with
  | Running => set_running b
  | PauseEvent => set_pauseEvent b
  | ReadEvent => set_readEvent b
  end.

Definition event_set (e : EventName) : M t unit :=
  modify (set_event e true);; tell [EventSet e].

Definition event_clear (e : EventName) : M t unit :=
  modify (set_event e false);; tell [EventClear e].

(** [Event.wait()] without timeout returns once the event is set. *)
Definition event_wait (e : EventName) : M t unit := λ s,
  if event e s then Ok tt s [EventWait e] else Block (WaitEvent e) s [].

(** [Lock.acquire()] (blocking) and [Lock.release()]; any thread may release. *)
Definition lock_acquire : M t unit := λ s,
  if readLock s then Block WaitLock s []
  else Ok tt (set_readLock true s) [LockAcquire].

Definition lock_release : M t unit := λ s,
  if readLock s then Ok tt (set_readLock false s) [LockRelease]
  else Raise RuntimeError s [].

(** [Queue.put(item)]: block=True, timeout=None. *)
Definition queue_put (item : option Image) : M t unit := λ s,
  if full (queue s) then Block (WaitPut item) s []
  else Ok tt (set_queue (mkQueue (maxsize (queue s)) (items (queue s) ++ [item])) s)
          [QueuePut item].

(** [Thread.start()]: a thread object can be started once. *)
Definition thread_start : M t unit := λ s,
  match thread s with
  | NotStarted => Ok tt (set_thread (Started AtEntry) s) [ThreadStart]
  | _ => Raise RuntimeError s []
  end.

(** [self.device.read()] *)
Definition device_read : M t (option Image) := λ s,
  match device s with
  | None => Raise AttributeError s []
  | Some h =>
      if isOpened h then
        match stream h with
        | Delivers frame :: rest =>
            Ok (Some frame) (set_device (Some (mkCapture true rest)) s) [DeviceRead true]
        | Fails still_opened :: rest =>
            Ok None (set_device (Some (mkCapture still_opened rest)) s) [DeviceRead false]
        | [] => Ok None s [DeviceRead false]
        end
      else Ok None s [DeviceRead false]
  end.

(** [self.device.release()] *)
Definition device_release : M t unit := λ s,
  match device s with
  | None => Raise AttributeError s []
  | Some h => Ok tt (set_device (Some (mkCapture false (stream h))) s) [DeviceRelease]
  end.

(** Modelled from the spec: [Emitter.emit] of [remio/sevent.py], which is
    not among the sources. The event notifier delivers a named event with
    its payload to the registered handlers; here the delivery is recorded. *)
Definition emit (topic : string) (payload : Payload) : M t unit :=
  tell [Emit topic payload].

(** *** Methods *)

Section Background.

(** [cv2.getTextSize(text, font, fontScale, thickness)[0]] *)
Variable getTextSize : string → Z → Q → Z → Z * Z.

Definition createBackground (text : string) (font : Z) (fontScale : Q)
    (fontColor : list Z) (thickness : Z) (size : option PySeq) : M t Image :=
  size ← match size with
         | None => gets defaultSize
         | Some size => mret size
         end;
  size ← (if len size =? 2 then append (reversed size) 3 else mret size);
  background ← np_zeros size;
  let '(tw, th) := getTextSize text font fontScale thickness in
  '(h, w) ← unpack3 size;
  let origin := (Z.quot (w - tw) 2, Z.quot (h - th) 2) in
  mret (PutText background text origin font fontScale fontColor thickness).

Definition enableBackground (text : string) (font : Z) (fontScale : Q)
    (fontColor : list Z) (thickness : Z) (size : option PySeq) : M t unit :=
  modify (set_backgroundIsEnabled true);;
  image ← createBackground text font fontScale fontColor thickness size;
  modify (set_background (Some image)).

Definition getBackground : M t (option Image) :=
  enabled ← gets backgroundIsEnabled;
  if (enabled : bool) then
    current ← gets background;
    match current with
    | None =>
        own_size ← gets size;
        image ← createBackground "Device not available" 0 (1 # 2) [255; 255; 255] 1 own_size;
        modify (set_background (Some image));;
        gets background
    | Some _ => gets background
    end
  else mret None.

End Background.

Definition disableBackground : M t unit :=
  modify (set_backgroundIsEnabled false);;
  modify (set_background None).

Definition start : M t unit :=
  thread_start.

Definition hasProcessing (s : t) : bool :=
  bool_decide (is_Some (processing s)).

Definition isConnected (s : t) : bool :=
  match device s with
  | Some h => isOpened h
  | None => false
  end.

Definition loadDevice : M t unit := λ s,
  match sources s with
  | OpenHandle h :: rest =>
      Ok tt (set_device (Some h) (set_sources rest s)) [VideoCaptureOpen]
  | OpenError :: rest => Ok tt (set_sources rest s) [VideoCaptureOpen; Print]
  | [] => Ok tt (set_device (Some (mkCapture false [])) s) [VideoCaptureOpen]
  end.

Definition reconnect : M t unit :=
  event_clear ReadEvent;;
  loadDevice;;
  seconds ← gets reconnectDelay;
  time_sleep seconds;;
  event_set ReadEvent.

Definition resume : M t unit :=
  event_set PauseEvent.

Definition pause : M t unit :=
  event_clear PauseEvent.

Definition setPause (value : bool) : M t unit :=
  if value then pause else resume.

Definition needAPause : M t unit :=
  event_wait PauseEvent.

(** [preprocess]: the resize raises when the size is not one [cv2.resize]
    accepts; the flips always return. *)
Definition preprocess (frame : Image) : M t Image :=
  own_size ← gets size;
  frame ← match own_size with
          | Some size => cv2_resize frame (slice_to 2 size)
          | None => mret frame
          end;
  mirrored ← gets flipX;
  let frame := if (mirrored : bool) then Flip frame 1 else frame in
  upturned ← gets flipY;
  let frame := if (upturned : bool) then Flip frame 0 else frame in
  mret frame.

(** [process]: the user transform is taken to be a function that returns. *)
Definition process (s : t) (frame : Image) : Image :=
  match processing s with
  | Some transform => transform frame
  | None => frame
  end.

(** [update], cut at the two places where it can be suspended. *)
Definition update_epilogue : M t unit :=
  event_set ReadEvent;;
  locked ← gets readLock;
  when locked lock_release.

Definition update_acquired : M t unit :=
  result ← device_read;
  match result with
  | Some grabbed =>
      image ← preprocess grabbed;
      self ← get;
      modify (set_frame (Some (process self image)));;
      emitting ← gets emitterIsEnabled;
      when emitting (
        own_name ← gets name;
        current ← gets frame;
        emit "frame-ready" (FrameOf own_name current);;
        emit "frame-available" (NameOf own_name));;
      queueing ← gets queueModeEnabled;
      when queueing (current ← gets frame; queue_put current)
  | None => mret tt
  end;;
  update_epilogue.

Definition update : M t unit :=
  event_clear ReadEvent;;
  lock_acquire;;
  update_acquired.

Definition applyDelay : M t unit :=
  rate ← gets fps;
  match rate with
  | Some _ => seconds ← gets delay; time_sleep seconds
  | None => mret tt
  end.

(** [run], in the three pieces between which the thread can be observed. *)
Definition run_prologue : M t unit :=
  loadDevice;;
  event_set Running.

Definition run_body : M t unit :=
  connected ← gets isConnected;
  (if (connected : bool) then update else reconnect);;
  applyDelay;;
  needAPause.

Definition run_epilogue : M t unit :=
  modify (set_queueModeEnabled false);;
  event_set ReadEvent;;
  device_release.

Definition getName (s : t) : string := name s.
Definition getFrame (s : t) : option Image := frame s.
Definition getFrame64 (s : t) : option string := frame64 s.

Definition setSpeed (fps : option Z) : M t unit :=
  modify (set_fps fps);;
  match fps with
  | Some n =>
      seconds ← one_over n;
      modify (set_defaultDelay seconds);;
      seconds ← gets defaultDelay;
      modify (set_delay seconds)
  | None => mret tt
  end.

(** *** The control-loop thread

    The thread that executes [run] advances from one observation point to
    the next: a step runs the prologue, one turn of the loop, the epilogue,
    or the rest of a turn that was suspended. *)

Definition settle (next : ThreadStatus) (r : Result t unit) : t * Trace :=
  match r with
  | Ok _ s tr => (set_thread next s, tr)
  | Raise e s tr => (set_thread (Crashed e) s, tr)
  | Block w s tr => (set_thread (Started (Blocked w)) s, tr)
  end.

(** What remains of an [update()] suspended at [w]: the acquisition of the
    lock, or the enqueue of the sample that was being put. *)
Definition update_from (w : Wait) : M t unit :=
  match w with
  | WaitLock => lock_acquire;; update_acquired
  | WaitPut item => queue_put item;; update_epilogue
  | WaitEvent _ | WaitGet | WaitJoin => block w
  end.

(** What remains of a turn of the loop suspended at [w]. *)
Definition resume_from (w : Wait) : M t unit :=
  match w with
  | WaitLock | WaitPut _ => update_from w;; applyDelay;; needAPause
  | WaitEvent e => event_wait e
  | WaitGet | WaitJoin => block w
  end.

(** One step of [run] for a thread that stands at [pc] in it. *)
Definition run_from (pc : Pc) : M t unit :=
  match pc with
  | AtEntry => run_prologue
  | AtLoop => alive ← gets running; if (alive : bool) then run_body else run_epilogue
  | Blocked w => resume_from w
  end.

Definition thread_step (s : t) : t * Trace :=
  match thread s with
  | Started AtEntry => settle (Started AtLoop) (run_prologue s)
  | Started AtLoop =>
      if running s then settle (Started AtLoop) (run_body s)
      else settle Finished (run_epilogue s)
  | Started (Blocked w) => settle (Started AtLoop) (resume_from w s)
  | NotStarted | Finished | Crashed _ => (s, [])
  end.

Fixpoint thread_run (n : nat) (s : t) : t * Trace :=
  match n with
  | O => (s, [])
  | S n =>
      let '(s1, tr1) := thread_step s in
      let '(s2, tr2) := thread_run n s1 in
      (s2, tr1 ++ tr2)
  end.

(** [Thread.join()]: the caller waits while the thread runs on. [patience]
    bounds the number of thread steps waited for; a caller that runs out of
    it is still blocked in the join. *)
Fixpoint thread_join (patience : nat) : M t unit := λ s,
  match thread s with
  | NotStarted => Raise RuntimeError s []
  | Finished | Crashed _ => Ok tt s []
  | Started _ =>
      match patience with
      | O => Block WaitJoin s []
      | S patience =>
          let '(s', tr) := thread_step s in
          prepend tr (thread_join patience s')
      end
  end.

(** [Queue.get(timeout=timeout)]: block=True. On an empty queue the caller
    waits for a producer, here the control-loop thread, which runs on in
    the meantime: [turns] is the number of steps the loop completes before
    the wait is over. With a timeout the wait ends at the deadline, where
    [queue.Empty] is raised (a timeout of 0 leaves the loop no time at all);
    with [timeout=None] there is no deadline, and a caller that has seen
    [turns] steps go by without a sample is still waiting. *)
Fixpoint queue_wait (expired : M t (option Image)) (turns : nat) : M t (option Image) := λ s,
  match items (queue s) with
  | item :: rest =>
      Ok item (set_queue (mkQueue (maxsize (queue s)) rest) s) [QueueGet item]
  | [] =>
      match turns with
      | O => expired s
      | S turns =>
          let '(s', tr) := thread_step s in
          prepend tr (queue_wait expired turns s')
      end
  end.

Definition queue_get (timeout : option Q) (turns : nat) : M t (option Image) :=
  match timeout with
  | None => queue_wait (block WaitGet) turns
  | Some seconds =>
      if Qle_bool 0 seconds then
        queue_wait (raise Empty) (if Qle_bool seconds 0 then 0%nat else turns)
      else raise ValueError
  end.

Definition read (timeout : option Q) (turns : nat) : M t (option Image) :=
  connected ← gets isConnected;
  if (connected : bool) then
    queueing ← gets queueModeEnabled;
    if (queueing : bool) then queue_get timeout turns else gets frame
  else gets background.

Definition stop (patience : nat) : M t unit :=
  resume;;
  locked ← gets readLock;
  when locked lock_release;;
  alive ← gets running;
  when alive (event_clear Running;; thread_join patience).

(** *** Construction *)

(** The keyword arguments of [Camera(...)]. [processing] stands for the
    transform with [processingParams] already applied; [encoderParams] only
    configures the encoder object, which no method calls. *)
Record Args : Type := mkArgs {
  arg_src : Z + string;
  arg_name : string;
  arg_reconnectDelay : Q;
  arg_fps : option Z;
  arg_verbose : bool;
  arg_size : option PySeq;
  arg_flipX : bool;
  arg_flipY : bool;
  arg_emitterIsEnabled : bool;
  arg_backgroundIsEnabled : bool;
  arg_queueModeEnabled : bool;
  arg_queueMaxSize : Z;
  arg_text : string;
  arg_font : Z;
  arg_fontScale : Q;
  arg_fontColor : list Z;
  arg_thickness : Z;
  arg_processing : option (Image → Image);
  arg_encoderIsEnabled : bool
}.

(** The defaults of the signature ([cv2.FONT_HERSHEY_SIMPLEX] is 0). *)
Definition defaults : Args :=
  {| arg_src := inl 0; arg_name := "default"; arg_reconnectDelay := 5; arg_fps := Some 10;
     arg_verbose := false; arg_size := None; arg_flipX := false; arg_flipY := false;
     arg_emitterIsEnabled := false; arg_backgroundIsEnabled := false;
     arg_queueModeEnabled := false; arg_queueMaxSize := 96;
     arg_text := "Device not available"; arg_font := 0; arg_fontScale := 1 # 2;
     arg_fontColor := [255; 255; 255]; arg_thickness := 1; arg_processing := None;
     arg_encoderIsEnabled := true |}.

(** The plain attribute assignments of [__init__]; [world] is what the
    environment will answer to the coming attempts to open [src]. *)
Definition allocate (a : Args) (world : list OpenAttempt) : t :=
  {| src := arg_src a; name := arg_name a; frame := None; fps := arg_fps a;
     verbose := arg_verbose a; size := arg_size a; flipX := arg_flipX a;
     flipY := arg_flipY a; backgroundIsEnabled := arg_backgroundIsEnabled a;
     background := None; processing := arg_processing a;
     queueModeEnabled := arg_queueModeEnabled a;
     queue := mkQueue (arg_queueMaxSize a) []; frame64 := None;
     encoderIsEnabled := arg_encoderIsEnabled a; delay := 0; defaultDelay := 0;
     reconnectDelay := arg_reconnectDelay a; defaultSize := PyList [720; 1280; 3];
     emitterIsEnabled := arg_emitterIsEnabled a; device := None; thread := NotStarted;
     running := false; pauseEvent := false; readEvent := false; readLock := false;
     sources := world |}.

(** [Camera(...)]: the statements of [__init__] that compute or call. *)
Definition __init__ (getTextSize : string → Z → Q → Z → Z * Z) (a : Args)
    (world : list OpenAttempt) : Result t unit :=
  (seconds ← match arg_fps a with
             | Some n => one_over n
             | None => mret (1 # 10)%Q
             end;
   modify (set_delay seconds);;
   own_delay ← gets delay;
   modify (set_defaultDelay own_delay);;
   resume;;
   when (arg_backgroundIsEnabled a) (
     own_size ← gets size;
     enableBackground getTextSize (arg_text a) (arg_font a) (arg_fontScale a)
       (arg_fontColor a) (arg_thickness a) own_size))
  (allocate a world).

(** *** Histories of an object *)

(** What can happen to a camera after construction: a call of one of its
    methods by a client thread, a step of its own control-loop thread, or
    the continuation of a client call that was suspended. [run] is a method
    like the others: a client that calls it executes the pieces of [run] in
    its own thread, and [CallRun pc] is the next step of such a thread when
    it stands at [pc]; [UpdateGoesOn w] is what remains of a client's
    [update()] that was suspended at [w]. The methods left out
    ([createBackground], [preprocess], [process], [hasProcessing],
    [isConnected] and the getters) assign none of these attributes, and
    [__del__] is [stop]. *)
Inductive Call : Type :=
| CallStart
| CallStop (patience : nat)
| CallPause
| CallResume
| CallSetPause (value : bool)
| CallSetSpeed (fps : option Z)
| CallRead (timeout : option Q) (turns : nat)
| CallEnableBackground (getTextSize : string → Z → Q → Z → Z * Z) (text : string)
    (font : Z) (fontScale : Q) (fontColor : list Z) (thickness : Z) (size : option PySeq)
| CallDisableBackground
| CallGetBackground (getTextSize : string → Z → Q → Z → Z * Z)
| CallLoadDevice
| CallReconnect
| CallNeedAPause
| CallUpdate
| CallApplyDelay
| CallRun (pc : Pc)
| UpdateGoesOn (w : Wait)
| LoopStep.

(** The state a call leaves behind, however it ends. *)
Definition after (c : Call) (s : t) : t :=
  match c with
  | CallStart => result_state (start s)
  | CallStop patience => result_state (stop patience s)
  | CallPause => result_state (pause s)
  | CallResume => result_state (resume s)
  | CallSetPause value => result_state (setPause value s)
  | CallSetSpeed fps => result_state (setSpeed fps s)
  | CallRead timeout turns => result_state (read timeout turns s)
  | CallEnableBackground getTextSize text font fontScale fontColor thickness size =>
      result_state (enableBackground getTextSize text font fontScale fontColor thickness size s)
  | CallDisableBackground => result_state (disableBackground s)
  | CallGetBackground getTextSize => result_state (getBackground getTextSize s)
  | CallLoadDevice => result_state (loadDevice s)
  | CallReconnect => result_state (reconnect s)
  | CallNeedAPause => result_state (needAPause s)
  | CallUpdate => result_state (update s)
  | CallApplyDelay => result_state (applyDelay s)
  | CallRun pc => result_state (run_from pc s)
  | UpdateGoesOn w => result_state (update_from w s)
  | LoopStep => fst (thread_step s)
  end.

Inductive reachable : t → Prop :=
| reachable_new getTextSize a world s tr :
    __init__ getTextSize a world = Ok tt s tr → reachable s
| reachable_after c s : reachable s → reachable (after c s).

End Camera.

(** ** class Cameras *)

Module Cameras.

(** [self.devices]: the dict from names to camera objects. *)
Record t : Type := mk { devices : gmap string Camera.t }.

(** [deviceName in self.devices] *)
Definition contains (deviceName : string) : M t bool :=
  gets (λ cs, bool_decide (is_Some (devices cs !! deviceName))).

(** [self.devices[deviceName].method(...)]: the method runs on the object
    stored in the dict, which keeps whatever the method did to it. *)
Definition on_device {A} (deviceName : string) (method : M Camera.t A) : M t A := λ cs,
  match devices cs !! deviceName with
  | None => Raise KeyError cs []
  | Some device =>
      match method device with
      | Ok a device' tr => Ok a (mk (<[deviceName := device']> (devices cs))) tr
      | Raise e device' tr => Raise e (mk (<[deviceName := device']> (devices cs))) tr
      | Block w device' tr => Block w (mk (<[deviceName := device']> (devices cs))) tr
      end
  end.

Definition __getitem__ (name : string) : M t Camera.t :=
  on_device name get.

Definition __len__ (cs : t) : Z :=
  Z.of_nat (size (devices cs)).

Definition startOnly (deviceName : string) : M t unit :=
  known ← contains deviceName;
  when known (on_device deviceName Camera.start).

Definition stopOnly (patience : nat) (deviceName : string) : M t unit :=
  known ← contains deviceName;
  when known (on_device deviceName (Camera.stop patience)).

Definition getDevice (deviceName : string) : M t (option Camera.t) :=
  known ← contains deviceName;
  if (known : bool) then device ← __getitem__ deviceName; mret (Some device)
  else mret None.

Definition pauseOnly (deviceName : string) : M t unit :=
  known ← contains deviceName;
  when known (on_device deviceName Camera.pause).

Definition resumeOnly (deviceName : string) : M t unit :=
  known ← contains deviceName;
  when known (on_device deviceName Camera.resume).

Definition setSpeedOnly (deviceName : string) (fps : option Z) : M t unit :=
  known ← contains deviceName;
  when known (on_device deviceName (Camera.setSpeed fps)).

Definition getFrameOf (deviceName : string) : M t (option Image) :=
  known ← contains deviceName;
  if (known : bool) then on_device deviceName (gets Camera.getFrame) else mret None.

Definition getFrame64Of (deviceName : string) : M t (option string) :=
  known ← contains deviceName;
  if (known : bool) then on_device deviceName (gets Camera.getFrame64) else mret None.

End Cameras.

(** ** The rest of class Cameras: operations on all devices

    [self.devices.values()] is iterated in the dict's own order; [names]
    stands for the keys of the dict in that order. *)

Module CamerasAll.

(** [for device in self.devices.values(): device.method()] *)
Fixpoint for_each (names : list string) (method : M Camera.t unit) : M Cameras.t unit :=
  match names with
  | [] => mret tt
  | name :: names => Cameras.on_device name method;; for_each names method
  end.

(** [[device.method() for device in self.devices.values()]] *)
Fixpoint collect {A} (names : list string) (method : M Camera.t A) : M Cameras.t (list A) :=
  match names with
  | [] => mret []
  | name :: names =>
      value ← Cameras.on_device name method;
      values ← collect names method;
      mret (value :: values)
  end.

(** [{key: value for ...}]: a later pair replaces an earlier one with the
    same key. *)
Definition to_dict {A} (pairs : list (string * A)) : gmap string A :=
  list_to_map (reverse pairs).

Definition startAll (names : list string) : M Cameras.t unit :=
  for_each names Camera.start.

Definition stopAll (patience : nat) (names : list string) : M Cameras.t unit :=
  for_each names (Camera.stop patience).

Definition pauseAll (names : list string) : M Cameras.t unit :=
  for_each names Camera.pause.

Definition resumeAll (names : list string) : M Cameras.t unit :=
  for_each names Camera.resume.

Definition getAllFrames (names : list string) (asDict : bool)
    : M Cameras.t (gmap string (option Image) + list (option Image)) :=
  if asDict then
    frames ← collect names (gets (λ device, (Camera.getName device, Camera.getFrame device)));
    mret (inl (to_dict frames))
  else
    frames ← collect names (gets Camera.getFrame);
    mret (inr frames).

Definition getAllFrames64 (names : list string) (asDict : bool)
    : M Cameras.t (gmap string (option string) + list (option Image)) :=
  if asDict then
    frames ← collect names (gets (λ device, (Camera.getName device, Camera.getFrame64 device)));
    mret (inl (to_dict frames))
  else
    frames ← collect names (gets Camera.getFrame);
    mret (inr frames).

(** [turns device] is the number of steps the loop of [device] completes
    while the caller waits on its queue. *)
Definition read (names : list string) (timeout : option Q) (turns : Camera.t → nat)
    (asDict : bool) : M Cameras.t (gmap string (option Image) + list (option Image)) :=
  if asDict then
    frames ← collect names (
      own_name ← gets Camera.getName;
      device ← get;
      sample ← Camera.read timeout (turns device);
      mret (own_name, sample));
    mret (inl (to_dict frames))
  else
    frames ← collect names (device ← get; Camera.read timeout (turns device));
    mret (inr frames).

(** [names] lists the keys of the registry, each once. *)
Definition keys_of (cs : Cameras.t) (names : list string) : Prop :=
  NoDup names ∧ ∀ name, name ∈ names ↔ is_Some (Cameras.devices cs !! name).

End CamerasAll.

(** ** Vocabulary of the statements *)

Import Camera.


(** The effects of [loadDevice], [reconnect] and [applyDelay]. *)
Definition open_trace (attempt : option OpenAttempt) : Trace :=
  match attempt with
  | Some OpenError => [VideoCaptureOpen; Print]
  | _ => [VideoCaptureOpen]
  end.


Definition delay_trace (s : t) : Trace :=
  match fps s with
  | Some _ => [Sleep (delay s)]
  | None => []
  end.





(** [applyDelay] has nothing to sleep or a valid length to sleep. *)
Definition can_sleep (s : t) : Prop :=
  fps s = None ∨ (0 <= delay s)%Q.

(** The frames of [s] can be resized: no size is configured, or its first
    two elements are positive. *)
Definition resizable (s : t) : Prop :=
  match size s with
  | Some size => ∃ w h, take 2 (elems size) = [w; h] ∧ 0 < w ∧ 0 < h
  | None => True
  end.

(** A loop at the top of a turn, running, not paused, in queue mode, whose
    frames can be resized. *)
Definition producing (s : t) : Prop :=
  thread s = Started AtLoop ∧ running s = true ∧ pauseEvent s = true ∧
  readLock s = false ∧ can_sleep s ∧ queueModeEnabled s = true ∧ resizable s.

(** The queue has capacity [K] and holds at most [K] samples. *)
Definition bounded (K : Z) (s : t) : Prop :=
  maxsize (queue s) = K ∧ Z.of_nat (length (items (queue s))) ≤ K.



(** A bounded queue holds at most its capacity. *)
Definition capacity_respected (s : t) : Prop :=
  0 < maxsize (queue s) → Z.of_nat (length (items (queue s))) ≤ maxsize (queue s).



(** The preprocessing options and the transform are those of [s0]. *)
Definition same_config (s0 s : t) : Prop :=
  size s = size s0 ∧ flipX s = flipX s0 ∧ flipY s = flipY s0 ∧
  processing s = processing s0.

(** What the documentation of [update] promises to store for a grabbed
    image: the image resized to the first two elements of the configured
    size, mirrored, turned upside down, and passed to the user transform,
    each step only if it is configured. *)
Definition published (s : t) (grabbed : Image) : option Image :=
  let image :=
    match size s with
    | Some size => Resize grabbed (take 2 (elems size))
    | None => grabbed
    end in
  let image := if flipX s then Flip image 1 else image in
  let image := if flipY s then Flip image 0 else image in
  Some (match processing s with
        | Some transform => transform image
        | None => image
        end).

(** What [update] has done to the object when the handle has delivered
    [grabbed] and the sample is about to be enqueued, and what it has
    announced by then. *)
Definition acquired (s : t) (grabbed : Image) (rest : list Grab) : t :=
  set_frame (published s grabbed)
    (set_device (Some (mkCapture true rest)) (set_readLock true (set_readEvent false s))).

Definition announce (s : t) (grabbed : Image) : Trace :=
  if emitterIsEnabled s
  then [Emit "frame-ready" (FrameOf (name s) (published s grabbed));
        Emit "frame-available" (NameOf (name s))]
  else [].

(** The object after a completed [update] that enqueued [item]. *)
Definition enqueued (item : option Image) (s : t) : t :=
  set_readLock false (set_readEvent true
    (set_queue (mkQueue (maxsize (queue s)) (items (queue s) ++ [item])) s)).



(** The origin that centres a text of size [textsize] on [h] rows and [w]
    columns: [(int((w - tw) / 2), int((h - th) / 2))]. *)
Definition centred (textsize : Z * Z) (h w : Z) : Z * Z :=
  (Z.quot (w - fst textsize) 2, Z.quot (h - snd textsize) 2).

(** [m] keeps [P], however it ends. *)
Definition preserves {A} (P : t → Prop) (m : M t A) : Prop :=
  ∀ s, P s → P (result_state (m s)).

(** [m] leaves the object as it is. *)
Definition readonly {A} (m : M t A) : Prop :=
  ∀ s, result_state (m s) = s.


(** [P] does not depend on the attributes that the engine's plumbing
    assigns (everything but the rate and the queue). *)
Record stable (P : t → Prop) : Prop := mkStable {
  stable_frame v s : P s → P (set_frame v s);
  stable_backgroundIsEnabled v s : P s → P (set_backgroundIsEnabled v s);
  stable_background v s : P s → P (set_background v s);
  stable_queueModeEnabled v s : P s → P (set_queueModeEnabled v s);
  stable_device v s : P s → P (set_device v s);
  stable_thread v s : P s → P (set_thread v s);
  stable_running v s : P s → P (set_running v s);
  stable_pauseEvent v s : P s → P (set_pauseEvent v s);
  stable_readEvent v s : P s → P (set_readEvent v s);
  stable_readLock v s : P s → P (set_readLock v s);
  stable_sources v s : P s → P (set_sources v s)
}.

(** ** Sample objects *)

Definition text_size : string → Z → Q → Z → Z * Z := λ _ _ _ _, (100, 20).

(** A capture that delivers [n] frames. *)
Definition webcam (n : nat) : VideoCapture :=
  mkCapture true (map (λ i, Delivers (Raw i)) (seq 0 n)).

(** [Camera(fps=..., size=..., backgroundIsEnabled=..., queueModeEnabled=...,
    queueMaxSize=...)], the other arguments at their defaults. *)
Definition settings (fps : option Z) (size : option PySeq)
    (backgroundIsEnabled queueModeEnabled : bool) (queueMaxSize : Z) : Args :=
  {| arg_src := inl 0; arg_name := "default"; arg_reconnectDelay := 5; arg_fps := fps;
     arg_verbose := false; arg_size := size; arg_flipX := false; arg_flipY := false;
     arg_emitterIsEnabled := false; arg_backgroundIsEnabled := backgroundIsEnabled;
     arg_queueModeEnabled := queueModeEnabled; arg_queueMaxSize := queueMaxSize;
     arg_text := "Device not available"; arg_font := 0; arg_fontScale := 1 # 2;
     arg_fontColor := [255; 255; 255]; arg_thickness := 1; arg_processing := None;
     arg_encoderIsEnabled := true |}.

Definition fresh (a : Args) (world : list OpenAttempt) : t :=
  result_state (__init__ text_size a world).

(** [Camera(src=0)] on a working device. *)
Definition default_camera : t :=
  Eval vm_compute in fresh defaults [OpenHandle (webcam 5)].

(** ... started, after the prologue and one turn of the loop. *)
Definition looping_camera : t :=
  Eval vm_compute in after LoopStep (after LoopStep (after CallStart default_camera)).


(** [Camera(fps=None)], not started. *)
Definition unthrottled_fresh : t :=
  Eval vm_compute in fresh (settings None None false false 96) [OpenHandle (webcam 5)].


(** [Camera(fps=None, queueModeEnabled=True, queueMaxSize=K)], started, after
    the prologue of [run]. *)
Definition queue_camera (K : Z) : t :=
  after LoopStep (after CallStart
    (fresh (settings None None false true K) [OpenHandle (webcam 5)])).

Definition queue_camera_1 : t := Eval vm_compute in queue_camera 1.
Definition queue_camera_0 : t := Eval vm_compute in queue_camera 0.
Definition queue_camera_3 : t := Eval vm_compute in queue_camera 3.

(** ... and after two more turns of the loop, nobody reading. *)
Definition jammed_camera : t :=
  Eval vm_compute in after LoopStep (after LoopStep queue_camera_1).





(** A camera whose handle fails to deliver a frame and still reports itself
    opened, at the top of a turn of the loop. *)
Definition flaky_camera : t :=
  Eval vm_compute in
    after LoopStep (after CallStart
      (fresh defaults [OpenHandle (mkCapture true [Fails true; Delivers (Raw 0)])])).

(** A camera whose handle is opened but fails to deliver, at the top of a
    turn of the loop. *)
Definition stalled_camera : t :=
  Eval vm_compute in
    after LoopStep (after CallStart
      (fresh defaults [OpenHandle (mkCapture true [Fails false])])).

(** [Camera(size=(320, 240), flipX=True, flipY=True, processing=stamp,
    emitterIsEnabled=True)], started, after the prologue of [run]. *)
Definition stamp (image : Image) : Image :=
  PutText image "seen" (0, 0) 0 1 [0; 255; 0] 1.

Definition studio : Args :=
  {| arg_src := inl 0; arg_name := "studio"; arg_reconnectDelay := 5; arg_fps := Some 10;
     arg_verbose := false; arg_size := Some (PyTuple [320; 240]); arg_flipX := true;
     arg_flipY := true; arg_emitterIsEnabled := true; arg_backgroundIsEnabled := false;
     arg_queueModeEnabled := false; arg_queueMaxSize := 96;
     arg_text := "Device not available"; arg_font := 0; arg_fontScale := 1 # 2;
     arg_fontColor := [255; 255; 255]; arg_thickness := 1; arg_processing := Some stamp;
     arg_encoderIsEnabled := true |}.

Definition studio_camera : t :=
  Eval vm_compute in
    after LoopStep (after CallStart (fresh studio [OpenHandle (webcam 5)])).

(** [Camera(src=0)] after an [enableBackground(size=(640, 480))] that
    raised: the fallback is enabled and there is no image yet. *)
Definition unlit_camera : t :=
  Eval vm_compute in
    after (CallEnableBackground text_size "offline" 0 1 [255] 1 (Some (PyTuple [640; 480])))
      default_camera.

(** [Camera(size=(0, 0))], started, after the prologue of [run]. *)
Definition warped_camera : t :=
  Eval vm_compute in
    after LoopStep (after CallStart
      (fresh (settings (Some 10) (Some (PyTuple [0; 0])) false false 96)
         [OpenHandle (webcam 5)])).

(** [Camera(src=0)] right after [start()], the loop thread not yet in [run]. *)
Definition spawned_camera : t :=
  Eval vm_compute in after CallStart default_camera.

(** A looping camera that was paused and has finished its turn. *)
Definition paused_camera : t :=
  Eval vm_compute in after LoopStep (after CallPause looping_camera).

(** [Camera(fps=-5)], started, after the prologue of [run]. *)
Definition backwards_camera : t :=
  Eval vm_compute in
    after LoopStep (after CallStart
      (fresh (settings (Some (-5)) None false false 96) [OpenHandle (webcam 5)])).


Definition registry : Cameras.t := Cameras.mk {[ "front" := looping_camera ]}.


(** A registry whose device carries its key as its name. *)
Definition named_registry : Cameras.t := Cameras.mk {[ "default" := looping_camera ]}.

(** Two devices that were never started. *)
Definition fresh_registry : Cameras.t :=
  Cameras.mk (<["front" := default_camera]> {[ "rear" := unthrottled_fresh ]}).

(** ** Reasoning about methods *)

Ltac unmonad :=
  unfold mbind, M_bind, mret, M_ret, gets, modify, tell, get, when, raise, block in *.

Lemma result_state_prepend {S A} (tr : Trace) (r : Result S A) :
  result_state (prepend tr r) = result_state r.
Proof. by destruct r. Qed.

Lemma result_trace_prepend {S A} (tr : Trace) (r : Result S A) :
  result_trace (prepend tr r) = tr ++ result_trace r.
Proof. by destruct r. Qed.

(** A sequence returns only if both parts do. *)
Lemma bind_ok {A B} (m : M t A) (f : A → M t B) (s s2 : t) (b : B) (tr : Trace) :
  (m ≫= f) s = Ok b s2 tr →
  ∃ a s1 tr1 tr2, m s = Ok a s1 tr1 ∧ f a s1 = Ok b s2 tr2 ∧ tr = tr1 ++ tr2.
Proof.
  unfold mbind, M_bind. destruct (m s) as [a s1 tr1| |]; [|done..].
  destruct (f a s1) as [b' s2' tr2| |] eqn:Hf; cbn; [|done..].
  intros [= -> -> <-]. by exists a, s1, tr1, tr2.
Qed.

(** The trace of a sequence is the trace of its first part followed, if
    that part returns, by the trace of the second. *)
Lemma trace_bind {A B} (m : M t A) (f : A → M t B) (s : t) :
  result_trace ((m ≫= f) s) =
  result_trace (m s) ++
  match m s with Ok a s1 _ => result_trace (f a s1) | _ => [] end.
Proof.
  unfold mbind, M_bind. destruct (m s) as [a s1 tr|e s1 tr|w s1 tr]; cbn.
  - by destruct (f a s1).
  - by rewrite app_nil_r.
  - by rewrite app_nil_r.
Qed.

Lemma readonly_bind {A B} (m : M t A) (f : A → M t B) :
  readonly m → (∀ a, readonly (f a)) → readonly (m ≫= f).
Proof.
  intros Hm Hf s. specialize (Hm s). unfold mbind, M_bind.
  destruct (m s) as [a s1 tr| |]; cbn in *; try done.
  subst s1. destruct (f a s) eqn:E; cbn; by rewrite <- (Hf a s), E.
Qed.

Lemma readonly_append sq x : readonly (append (S := t) sq x).
Proof. by destruct sq. Qed.

Lemma readonly_np_zeros sq : readonly (np_zeros (S := t) sq).
Proof. intros s. unfold np_zeros. by destruct (forallb _ _). Qed.

Lemma readonly_unpack3 sq : readonly (unpack3 (S := t) sq).
Proof. intros s. unfold unpack3. by destruct (elems sq) as [|? [|? [|? [|]]]]. Qed.

Lemma readonly_cv2_resize frame sq : readonly (cv2_resize (S := t) frame sq).
Proof.
  intros s. unfold cv2_resize.
  destruct (elems sq) as [|w [|h [|]]]; try done. by destruct (_ && _).
Qed.

Lemma readonly_preprocess frame : readonly (preprocess frame).
Proof.
  unfold preprocess.
  repeat first
    [ apply readonly_bind; [|intros ?]
    | apply readonly_cv2_resize
    | solve [intros ?; reflexivity]
    | match goal with
      | |- readonly (match ?x with _ => _ end) => destruct x
      end ].
Qed.












(** *** Invariants of every method and of the control loop

    A property that the plumbing cannot disturb, and that the queue
    operations, [setSpeed] and the constructor establish or keep, holds in
    every state an object can reach. *)

Section Preservation.

Context {P : t → Prop}.

Lemma preserves_bind {A B} (m : M t A) (f : A → M t B) :
  preserves P m → (∀ a, preserves P (f a)) → preserves P (m ≫= f).
Proof.
  intros Hm Hf s Hs. specialize (Hm s Hs). unfold mbind, M_bind.
  destruct (m s) as [a s1 tr| |]; cbn in *; try done.
  rewrite result_state_prepend. by apply Hf.
Qed.

Lemma preserves_pure {A} (m : M t A) : readonly m → preserves P m.
Proof. intros Hm s Hs. by rewrite Hm. Qed.

Lemma preserves_modify (f : t → t) :
  (∀ s, P s → P (f s)) → preserves P (modify f).
Proof. intros Hf s Hs. by apply Hf. Qed.

Lemma preserves_when (b : bool) (m : M t unit) :
  preserves P m → preserves P (when b m).
Proof. intros Hm. destruct b; [done|]. by apply preserves_pure. Qed.

Hypothesis HP : stable P.

Ltac leaf :=
  intros; cbn;
  first [ done
        | by apply stable_frame | by apply stable_backgroundIsEnabled
        | by apply stable_background | by apply stable_queueModeEnabled
        | by apply stable_device | by apply stable_thread | by apply stable_running
        | by apply stable_pauseEvent | by apply stable_readEvent
        | by apply stable_readLock | by apply stable_sources ].

Ltac step :=
  first
    [ apply preserves_bind; [|intros ?]
    | apply preserves_when
    | apply preserves_modify; solve [leaf]
    | apply preserves_pure; solve [intros ?; reflexivity]
    | assumption
    | match goal with
      | |- preserves _ (if ?b then _ else _) => destruct b
      | |- preserves _ (match ?x with _ => _ end) => destruct x
      end ].

Lemma preserves_event_set e : preserves P (event_set e).
Proof. unfold event_set. destruct e; repeat step. Qed.

Lemma preserves_event_clear e : preserves P (event_clear e).
Proof. unfold event_clear. destruct e; repeat step. Qed.

Lemma preserves_event_wait e : preserves P (event_wait e).
Proof. apply preserves_pure. intros s. unfold event_wait. by destruct (event e s). Qed.

Lemma preserves_lock_acquire : preserves P lock_acquire.
Proof. intros s Hs. unfold lock_acquire. destruct (readLock s); cbn; [done|leaf]. Qed.

Lemma preserves_lock_release : preserves P lock_release.
Proof. intros s Hs. unfold lock_release. destruct (readLock s); cbn; [leaf|done]. Qed.

Lemma preserves_thread_start : preserves P thread_start.
Proof. intros s Hs. unfold thread_start. destruct (thread s); cbn; leaf. Qed.

Lemma preserves_device_read : preserves P device_read.
Proof.
  intros s Hs. unfold device_read.
  destruct (device s) as [[[] [|[]]]|]; cbn; leaf.
Qed.

Lemma preserves_device_release : preserves P device_release.
Proof. intros s Hs. unfold device_release. destruct (device s); cbn; leaf. Qed.

Lemma preserves_loadDevice : preserves P loadDevice.
Proof.
  intros s Hs. unfold loadDevice. destruct (sources s) as [|[] ?]; cbn; try leaf.
  apply stable_device; [done|]. by apply stable_sources.
Qed.

Lemma preserves_time_sleep d : preserves P (time_sleep d).
Proof. apply preserves_pure. intros s. unfold time_sleep. by destruct (Qle_bool 0 d). Qed.

Lemma preserves_createBackground gts text font fontScale fontColor thickness size :
  preserves P (createBackground gts text font fontScale fontColor thickness size).
Proof.
  apply preserves_pure. unfold createBackground.
  repeat first
    [ apply readonly_bind; [|intros ?]
    | apply readonly_append | apply readonly_np_zeros | apply readonly_unpack3
    | solve [intros ?; reflexivity]
    | match goal with
      | |- readonly (if ?b then _ else _) => destruct b
      | |- readonly (match ?x with _ => _ end) => destruct x
      end ].
Qed.

Hint Resolve preserves_event_set preserves_event_clear preserves_event_wait
  preserves_lock_acquire preserves_lock_release preserves_thread_start
  preserves_device_read preserves_device_release preserves_loadDevice
  preserves_time_sleep preserves_createBackground : core.

Ltac go := repeat first [ solve [auto] | step ].

Lemma preserves_enableBackground gts text font fontScale fontColor thickness size :
  preserves P (enableBackground gts text font fontScale fontColor thickness size).
Proof. unfold enableBackground. go. Qed.

Lemma preserves_getBackground gts : preserves P (getBackground gts).
Proof. unfold getBackground. go. Qed.

Lemma preserves_disableBackground : preserves P disableBackground.
Proof. unfold disableBackground. go. Qed.

Lemma preserves_start : preserves P start.
Proof. unfold start. go. Qed.

Lemma preserves_reconnect : preserves P reconnect.
Proof. unfold reconnect. go. Qed.

Lemma preserves_resume : preserves P resume.
Proof. unfold resume. go. Qed.

Lemma preserves_pause : preserves P pause.
Proof. unfold pause. go. Qed.

Lemma preserves_setPause b : preserves P (setPause b).
Proof. unfold setPause, pause, resume. go. Qed.

Lemma preserves_needAPause : preserves P needAPause.
Proof. unfold needAPause. go. Qed.

Lemma preserves_applyDelay : preserves P applyDelay.
Proof. unfold applyDelay. go. Qed.

Lemma preserves_update_epilogue : preserves P update_epilogue.
Proof. unfold update_epilogue. go. Qed.

Hint Resolve preserves_reconnect preserves_resume preserves_pause preserves_needAPause
  preserves_applyDelay preserves_update_epilogue : core.

Hypothesis Hput : ∀ item, preserves P (queue_put item).
Hypothesis Hget : ∀ item rest s,
  items (queue s) = item :: rest → P s → P (set_queue (mkQueue (maxsize (queue s)) rest) s).
Hypothesis Hspeed : ∀ fps, preserves P (setSpeed fps).

Lemma preserves_preprocess frame : preserves P (preprocess frame).
Proof. apply preserves_pure, readonly_preprocess. Qed.

Hint Resolve preserves_preprocess : core.

Lemma preserves_update_acquired : preserves P update_acquired.
Proof. unfold update_acquired, emit. go. Qed.

Lemma preserves_update : preserves P update.
Proof. unfold update. pose proof preserves_update_acquired. go. Qed.

Lemma preserves_update_from w : preserves P (update_from w).
Proof. unfold update_from. pose proof preserves_update_acquired. destruct w; go. Qed.

Lemma preserves_run_body : preserves P run_body.
Proof. unfold run_body. pose proof preserves_update. go. Qed.

Lemma preserves_run_prologue : preserves P run_prologue.
Proof. unfold run_prologue. go. Qed.

Lemma preserves_run_epilogue : preserves P run_epilogue.
Proof. unfold run_epilogue. go. Qed.

Lemma preserves_resume_from w : preserves P (resume_from w).
Proof. unfold resume_from. pose proof (preserves_update_from w). destruct w; go. Qed.

Lemma preserves_run_from pc : preserves P (run_from pc).
Proof.
  unfold run_from.
  pose proof preserves_run_prologue. pose proof preserves_run_body.
  pose proof preserves_run_epilogue. pose proof preserves_resume_from.
  destruct pc; go.
Qed.

Lemma settle_keeps next (r : Result t unit) :
  P (result_state r) → P (fst (settle next r)).
Proof. destruct r; cbn; apply stable_thread; done. Qed.

Lemma thread_step_keeps s : P s → P (fst (thread_step s)).
Proof.
  intros Hs. unfold thread_step.
  destruct (thread s) as [|[| |w]| |]; try done.
  - by apply settle_keeps, preserves_run_prologue.
  - destruct (running s); apply settle_keeps.
    + by apply preserves_run_body.
    + by apply preserves_run_epilogue.
  - by apply settle_keeps, preserves_resume_from.
Qed.

Lemma thread_run_keeps n s : P s → P (fst (thread_run n s)).
Proof.
  revert s. induction n as [|n IH]; intros s Hs; [done|].
  cbn. pose proof (thread_step_keeps s Hs) as H1.
  destruct (thread_step s) as [s1 tr1]. specialize (IH s1 H1).
  by destruct (thread_run n s1).
Qed.

Lemma preserves_thread_join patience : preserves P (thread_join patience).
Proof.
  induction patience as [|n IH]; intros s Hs; cbn.
  - by destruct (thread s).
  - destruct (thread s); try done.
    pose proof (thread_step_keeps s Hs) as H1.
    destruct (thread_step s) as [s1 tr1]. rewrite result_state_prepend. by apply IH.
Qed.

Lemma preserves_stop patience : preserves P (stop patience).
Proof. unfold stop. pose proof (preserves_thread_join patience). go. Qed.

Lemma preserves_queue_wait (expired : M t (option Image)) turns :
  preserves P expired → preserves P (queue_wait expired turns).
Proof.
  intros Hexpired. induction turns as [|n IH]; intros s Hs; cbn.
  - destruct (items (queue s)) eqn:Hitems; [by apply Hexpired | by eapply Hget].
  - destruct (items (queue s)) eqn:Hitems; [|by eapply Hget].
    pose proof (thread_step_keeps s Hs) as H1.
    destruct (thread_step s) as [s1 tr1]. rewrite result_state_prepend. by apply IH.
Qed.

Lemma preserves_queue_get timeout turns : preserves P (queue_get timeout turns).
Proof.
  unfold queue_get. destruct timeout as [seconds|].
  - destruct (Qle_bool 0 seconds); [|by apply preserves_pure].
    by apply preserves_queue_wait, preserves_pure.
  - by apply preserves_queue_wait, preserves_pure.
Qed.

Lemma preserves_read timeout turns : preserves P (read timeout turns).
Proof. unfold read. pose proof (preserves_queue_get timeout turns). go. Qed.

Lemma after_keeps c s : P s → P (after c s).
Proof.
  intros Hs. destruct c; cbn [after].
  - by apply preserves_start.
  - by apply preserves_stop.
  - by apply preserves_pause.
  - by apply preserves_resume.
  - by apply preserves_setPause.
  - by apply Hspeed.
  - by apply preserves_read.
  - by apply preserves_enableBackground.
  - by apply preserves_disableBackground.
  - by apply preserves_getBackground.
  - by apply preserves_loadDevice.
  - by apply preserves_reconnect.
  - by apply preserves_needAPause.
  - by apply preserves_update.
  - by apply preserves_applyDelay.
  - by apply preserves_run_from.
  - by apply preserves_update_from.
  - by apply thread_step_keeps.
Qed.

Lemma init_keeps gts a world :
  (∀ v s, P s → P (set_delay v s)) →
  (∀ v s, P s → P (set_defaultDelay v s)) →
  P (allocate a world) → P (result_state (__init__ gts a world)).
Proof.
  intros Hdelay Hdefault. unfold __init__.
  pose proof (preserves_enableBackground gts (arg_text a) (arg_font a) (arg_fontScale a)
                (arg_fontColor a) (arg_thickness a)) as Hbg.
  apply preserves_bind.
  - destruct (arg_fps a) as [n|]; apply preserves_pure; [|done].
    intros s. unfold one_over. by destruct (n =? 0).
  - intros seconds.
    repeat first [ apply Hbg | solve [auto]
                 | apply preserves_bind; [|intros ?] | apply preserves_when
                 | apply preserves_modify; solve [auto]
                 | apply preserves_pure; solve [intros ?; reflexivity] ].
Qed.

Hypothesis Hinit : ∀ gts a world s tr, __init__ gts a world = Ok tt s tr → P s.

Lemma reachable_invariant s : reachable s → P s.
Proof. induction 1; [by eapply Hinit | by apply after_keeps]. Qed.

End Preservation.

(** *** The secondary encoding is never assigned *)







(** *** A configured rate fixes the delay *)







(** *** The acquisition step *)

Lemma device_read_frame (s s1 : t) (r : option Image) (tr : Trace) :
  device_read s = Ok r s1 tr →
  frame s1 = frame s ∧ queue s1 = queue s ∧ frame64 s1 = frame64 s ∧
  readLock s1 = readLock s ∧ tr = [DeviceRead (bool_decide (is_Some r))].
Proof.
  unfold device_read. intros Hread. destruct s; cbn in *.
  destruct device0 as [[[] [|[]]]|]; inversion Hread; subst; done.
Qed.




(** An acquisition step on a free lock gets as far as reading the handle. *)
Lemma update_starts (s : t) (h : VideoCapture) :
  readLock s = false → device s = Some h →
  ∃ ok rest, result_trace (update s) =
             EventClear ReadEvent :: LockAcquire :: DeviceRead ok :: rest.
Proof.
  intros Hlock Hdev.
  unfold update, update_acquired, event_clear, lock_acquire, device_read. unmonad.
  destruct s. cbn in *. subst. cbn.
  destruct h as [[] [|[] ?]]; cbn; rewrite ?result_trace_prepend; cbn; eauto.
Qed.

(** *** Turns of the loop on a handle that is not ready *)





(** *** The fallback image *)

Lemma np_zeros_ok (sq : PySeq) (s : t) :
  Forall (Z.le 0) (elems sq) → np_zeros sq s = Ok (Zeros (elems sq)) s [].
Proof.
  intros Hall. unfold np_zeros.
  replace (forallb (Z.leb 0) (elems sq)) with true; [done|].
  symmetry. apply forallb_forall. intros x Hx. apply Z.leb_le.
  rewrite Forall_forall in Hall. apply Hall. by apply list_elem_of_In.
Qed.

Section CreateBackground.

Variable getTextSize : string → Z → Q → Z → Z * Z.
Variables (text : string) (font : Z) (fontScale : Q) (fontColor : list Z) (thickness : Z).

Lemma createBackground_three (s : t) (sq : PySeq) (h w c : Z) :
  elems sq = [h; w; c] → 0 ≤ h → 0 ≤ w → 0 ≤ c →
  createBackground getTextSize text font fontScale fontColor thickness (Some sq) s =
  Ok (PutText (Zeros [h; w; c]) text
        (centred (getTextSize text font fontScale thickness) h w)
        font fontScale fontColor thickness) s [].
Proof.
  intros Hsq Hh Hw Hc.
  unfold createBackground, centred. unmonad.
  assert ((len sq =? 2) = false) as Hlen by (unfold len; by rewrite Hsq).
  cbv beta iota. rewrite Hlen. cbv beta iota.
  rewrite np_zeros_ok by (rewrite Hsq; repeat constructor; done).
  unfold unpack3. rewrite Hsq.
  destruct (getTextSize text font fontScale thickness) as [tw th]. reflexivity.
Qed.

Lemma createBackground_pair_list (s : t) (w h : Z) :
  0 ≤ w → 0 ≤ h →
  createBackground getTextSize text font fontScale fontColor thickness
    (Some (PyList [w; h])) s =
  Ok (PutText (Zeros [h; w; 3]) text
        (centred (getTextSize text font fontScale thickness) h w)
        font fontScale fontColor thickness) s [].
Proof.
  intros Hw Hh.
  unfold createBackground, centred. unmonad.
  change (len (PyList [w; h]) =? 2) with true. cbv beta iota.
  change (append (reversed (PyList [w; h])) 3 s) with (Ok (PyList [h; w; 3]) s []).
  cbv beta iota.
  rewrite np_zeros_ok by (repeat constructor; done).
  destruct (getTextSize text font fontScale thickness) as [tw th]. reflexivity.
Qed.

Lemma createBackground_pair_tuple (s : t) (w h : Z) :
  createBackground getTextSize text font fontScale fontColor thickness
    (Some (PyTuple [w; h])) s = Raise AttributeError s [].
Proof. reflexivity. Qed.

End CreateBackground.

(** *** The bounded queue *)

Lemma elems_slice_to n sq : elems (slice_to n sq) = take n (elems sq).
Proof. by destruct sq. Qed.

Lemma preprocess_published (s : t) (grabbed : Image) :
  resizable s →
  ∃ image, preprocess grabbed s = Ok image s [] ∧
           published s grabbed = Some (process s image).
Proof.
  unfold resizable, preprocess, published, process, cv2_resize. unmonad. intros Hsize.
  destruct (size s) as [sq|] eqn:Hsq; cbn.
  - destruct Hsize as (w & h & Htake & Hw & Hh).
    rewrite elems_slice_to, Htake.
    apply Z.ltb_lt in Hw, Hh. rewrite Hw, Hh. cbn. eauto.
  - eauto.
Qed.

Lemma update_delivers (s : t) (grabbed : Image) (rest : list Grab) :
  readLock s = false → device s = Some (mkCapture true (Delivers grabbed :: rest)) →
  resizable s →
  update s =
    if queueModeEnabled s then
      if full (queue s) then
        Block (WaitPut (published s grabbed)) (acquired s grabbed rest)
          ([EventClear ReadEvent; LockAcquire; DeviceRead true] ++ announce s grabbed)
      else
        Ok tt (enqueued (published s grabbed) (acquired s grabbed rest))
          ([EventClear ReadEvent; LockAcquire; DeviceRead true] ++ announce s grabbed ++
           [QueuePut (published s grabbed); EventSet ReadEvent; LockRelease])
    else
      Ok tt (set_readLock false (set_readEvent true (acquired s grabbed rest)))
        ([EventClear ReadEvent; LockAcquire; DeviceRead true] ++ announce s grabbed ++
         [EventSet ReadEvent; LockRelease]).
Proof.
  intros Hlock Hdev Hsize.
  destruct (preprocess_published (set_device (Some (mkCapture true rest))
              (set_readLock true (set_readEvent false s))) grabbed)
    as (image & Hpre & Hpub).
  { by destruct s. }
  assert (published s grabbed = Some (process s image)) as Himage.
  { unfold published, process in *. destruct s. exact Hpub. }
  unfold update, update_acquired, update_epilogue, event_clear, event_set, lock_acquire,
    lock_release, device_read, queue_put, emit, enqueued, acquired, announce.
  rewrite Himage. clear Hpub Himage.
  unmonad. cbn -[full preprocess process].
  destruct s. cbn -[full preprocess process] in *. subst.
  cbn -[full preprocess process]. rewrite Hpre. cbn -[full process].
  destruct emitterIsEnabled0, queueModeEnabled0; cbn -[full process]; try done.
  all: destruct (full queue0); cbn -[process]; done.
Qed.

(** A turn of the loop on a handle that delivers a frame. *)
Lemma turn_delivers (s : t) (grabbed : Image) (rest : list Grab) :
  thread s = Started AtLoop → running s = true → pauseEvent s = true →
  readLock s = false → can_sleep s → resizable s →
  device s = Some (mkCapture true (Delivers grabbed :: rest)) →
  thread_step s =
    if queueModeEnabled s then
      if full (queue s) then
        (set_thread (Started (Blocked (WaitPut (published s grabbed))))
           (acquired s grabbed rest),
         [EventClear ReadEvent; LockAcquire; DeviceRead true] ++ announce s grabbed)
      else
        (set_thread (Started AtLoop) (enqueued (published s grabbed) (acquired s grabbed rest)),
         [EventClear ReadEvent; LockAcquire; DeviceRead true] ++ announce s grabbed ++
         [QueuePut (published s grabbed); EventSet ReadEvent; LockRelease] ++
         delay_trace s ++ [EventWait PauseEvent])
    else
      (set_thread (Started AtLoop)
         (set_readLock false (set_readEvent true (acquired s grabbed rest))),
       [EventClear ReadEvent; LockAcquire; DeviceRead true] ++ announce s grabbed ++
       [EventSet ReadEvent; LockRelease] ++ delay_trace s ++ [EventWait PauseEvent]).
Proof.
  intros Hth Hrun Hpause Hlock Hsleep Hsize Hdev.
  pose proof (update_delivers s grabbed rest Hlock Hdev Hsize) as Hupdate.
  unfold thread_step. rewrite Hth, Hrun.
  unfold run_body. unfold mbind at 1, M_bind at 1. unfold gets at 1. cbn [prepend app].
  assert (isConnected s = true) as -> by (unfold isConnected; by rewrite Hdev).
  unfold mbind at 1, M_bind at 1. rewrite Hupdate. clear Hupdate.
  unfold applyDelay, needAPause, event_wait, time_sleep, delay_trace, can_sleep, enqueued,
    acquired, announce in *. unmonad.
  destruct s. cbn -[Qle_bool full published] in *. subst.
  destruct queueModeEnabled0; [destruct (full queue0)|]; cbn -[Qle_bool published]; try done.
  all: destruct fps0; cbn -[Qle_bool published].
  all: try (destruct Hsleep as [|Hsleep]; [done|]; apply Qle_bool_iff in Hsleep;
            rewrite Hsleep; cbn -[Qle_bool published]).
  all: rewrite <- ?app_assoc; cbn -[published]; by rewrite ?app_nil_r.
Qed.

Lemma published_same (s s' : t) (grabbed : Image) :
  same_config s s' → published s' grabbed = published s grabbed.
Proof. unfold published. by intros (-> & -> & -> & ->). Qed.

Lemma full_iff (q : Queue) :
  full q = true ↔ 0 < maxsize q ∧ maxsize q ≤ Z.of_nat (length (items q)).
Proof. unfold full. rewrite andb_true_iff, Z.ltb_lt, Z.leb_le. done. Qed.

Lemma not_full_iff (q : Queue) :
  full q = false ↔ maxsize q ≤ 0 ∨ Z.of_nat (length (items q)) < maxsize q.
Proof. unfold full. rewrite andb_false_iff, Z.ltb_ge, Z.leb_gt. done. Qed.

(** A loop suspended in the enqueue: it stays there while the queue is
    full, and completes the turn once there is room. *)
Lemma blocked_put_stays (s : t) (item : option Image) :
  thread s = Started (Blocked (WaitPut item)) → full (queue s) = true →
  thread_step s = (s, []).
Proof.
  intros Hth Hfull. unfold thread_step. rewrite Hth.
  unfold resume_from, update_from, queue_put.
  unmonad. cbn. rewrite Hfull. cbn. destruct s. cbn in *. by subst.
Qed.

Lemma blocked_put_run (n : nat) (s : t) (item : option Image) :
  thread s = Started (Blocked (WaitPut item)) → full (queue s) = true →
  thread_run n s = (s, []).
Proof.
  intros Hth Hfull. induction n as [|n IH]; [done|].
  cbn. by rewrite (blocked_put_stays _ item), IH.
Qed.

Lemma blocked_put_goes_on (s : t) (item : option Image) :
  thread s = Started (Blocked (WaitPut item)) → full (queue s) = false →
  pauseEvent s = true → can_sleep s →
  thread_step s =
    (set_thread (Started AtLoop) (enqueued item s),
     [QueuePut item; EventSet ReadEvent] ++ (if readLock s then [LockRelease] else []) ++
     delay_trace s ++ [EventWait PauseEvent]).
Proof.
  intros Hth Hfull Hpause Hsleep. unfold thread_step. rewrite Hth.
  unfold resume_from, update_from, update_epilogue, queue_put, applyDelay, needAPause,
    event_set, event_wait, lock_release, time_sleep, delay_trace, can_sleep, enqueued in *.
  unmonad. cbn -[Qle_bool]. rewrite Hfull. cbn -[Qle_bool].
  destruct s. cbn -[Qle_bool] in *. subst.
  destruct readLock0; cbn -[Qle_bool].
  all: destruct fps0; cbn -[Qle_bool].
  all: try (destruct Hsleep as [|Hsleep]; [done|]; apply Qle_bool_iff in Hsleep;
            rewrite Hsleep; cbn -[Qle_bool]).
  all: done.
Qed.

Lemma thread_run_add (n m : nat) (s : t) :
  (thread_run (n + m) s).1 = (thread_run m (thread_run n s).1).1.
Proof.
  revert s. induction n as [|n IH]; intros s; [done|].
  cbn. destruct (thread_step s) as [s1 tr1]. specialize (IH s1).
  destruct (thread_run (n + m) s1), (thread_run n s1). cbn in *.
  by destruct (thread_run m t0).
Qed.

Section Backpressure.

Variable K : Z.

Lemma bounded_stable : stable (bounded K).
Proof. by split. Qed.

Lemma bounded_put item : 0 < K → preserves (bounded K) (queue_put item).
Proof.
  intros K_positive s [Hmax Hlen]. unfold queue_put.
  destruct (full (queue s)) eqn:Hfull; [done|].
  apply not_full_iff in Hfull. destruct s. unfold bounded. cbn in *.
  split; [done|]. rewrite length_app, Nat2Z.inj_add. cbn [length]. lia.
Qed.

Lemma bounded_get item rest (s : t) :
  items (queue s) = item :: rest → bounded K s →
  bounded K (set_queue (mkQueue (maxsize (queue s)) rest) s).
Proof.
  intros Hitems [Hmax Hlen]. rewrite Hitems, length_cons in Hlen.
  destruct s. unfold bounded. cbn in *. split; [done|lia].
Qed.

Lemma bounded_run n s : 0 < K → bounded K s → bounded K (thread_run n s).1.
Proof.
  intros K_positive.
  apply thread_run_keeps; [apply bounded_stable | intros item; by apply bounded_put].
Qed.

(** A turn of a producing loop that finds room in the queue. *)
Lemma produce_step (s : t) (grabbed : Image) (rest : list Grab) :
  producing s → device s = Some (mkCapture true (Delivers grabbed :: rest)) →
  full (queue s) = false →
  producing (thread_step s).1 ∧ same_config s (thread_step s).1 ∧
  device (thread_step s).1 = Some (mkCapture true rest) ∧
  maxsize (queue (thread_step s).1) = maxsize (queue s) ∧
  items (queue (thread_step s).1) = items (queue s) ++ [published s grabbed].
Proof.
  intros (Hth & Hrun & Hpause & Hlock & Hsleep & Hmode & Hsize) Hdev Hfull.
  rewrite (turn_delivers s grabbed rest) by done. rewrite Hmode, Hfull.
  unfold producing, same_config, can_sleep, resizable, enqueued, acquired in *.
  destruct s. cbn -[published] in *. subst. split_and!; done.
Qed.

(** A turn of a producing loop that finds the queue full. *)
Lemma produce_block (s : t) (grabbed : Image) (rest : list Grab) :
  producing s → device s = Some (mkCapture true (Delivers grabbed :: rest)) →
  full (queue s) = true →
  thread (thread_step s).1 = Started (Blocked (WaitPut (published s grabbed))) ∧
  queue (thread_step s).1 = queue s ∧ readLock (thread_step s).1 = true ∧
  pauseEvent (thread_step s).1 = true ∧ can_sleep (thread_step s).1 ∧
  isConnected (thread_step s).1 = true ∧ queueModeEnabled (thread_step s).1 = true.
Proof.
  intros (Hth & Hrun & Hpause & Hlock & Hsleep & Hmode & Hsize) Hdev Hfull.
  rewrite (turn_delivers s grabbed rest) by done. rewrite Hmode, Hfull.
  unfold can_sleep, acquired, isConnected in *.
  destruct s. cbn -[published] in *. subst. split_and!; done.
Qed.

(** The turns of a producing loop while there is room in the queue. *)
Lemma produce_run (grabbed : list Image) (rest : list Grab) (s : t) :
  producing s → maxsize (queue s) = K →
  device s = Some (mkCapture true (map Delivers grabbed ++ rest)) →
  (0 < K → Z.of_nat (length (items (queue s)) + length grabbed) ≤ K) →
  let s' := (thread_run (length grabbed) s).1 in
  producing s' ∧ same_config s s' ∧ maxsize (queue s') = K ∧
  device s' = Some (mkCapture true rest) ∧
  items (queue s') = items (queue s) ++ map (published s) grabbed.
Proof.
  revert s. induction grabbed as [|im grabbed IH]; intros s Hprod Hmax Hdev Hlen;
    cbn [length thread_run map app].
  { split_and!; try done. cbn [fst]. by rewrite app_nil_r. }
  rewrite length_cons in Hlen.
  assert (full (queue s) = false) as Hfull.
  { apply not_full_iff. rewrite Hmax. destruct (decide (0 < K)); [right|left]; lia. }
  cbn [map app] in Hdev.
  destruct (produce_step s im (map Delivers grabbed ++ rest) Hprod Hdev Hfull)
    as (Hprod' & Hsame' & Hdev' & Hmax' & Hitems').
  destruct (thread_step s) as [s1 tr1]. cbn [fst snd] in *.
  destruct (IH s1) as (H1 & H2 & H3 & H4 & H5); try done.
  { congruence. }
  { intros HK. rewrite Hitems', length_app. cbn [length]. lia. }
  destruct (thread_run (length grabbed) s1) as [s2 tr2]. cbn [fst snd] in *.
  split_and!; try done.
  - destruct Hsame' as (? & ? & ? & ?), H2 as (? & ? & ? & ?).
    unfold same_config. split_and!; congruence.
  - rewrite H5, Hitems', <- app_assoc. cbn [app]. do 2 f_equal.
    apply map_ext. intros a. by apply published_same.
Qed.

End Backpressure.

(** *** Joining a loop that cannot move *)

Lemma join_blocked_put (patience : nat) (s : t) (item : option Image) :
  thread s = Started (Blocked (WaitPut item)) → full (queue s) = true →
  thread_join patience s = Block WaitJoin s [].
Proof.
  intros Hth Hfull. induction patience as [|n IH]; cbn; rewrite Hth; [done|].
  by rewrite (blocked_put_stays _ item), IH.
Qed.

(** *** Waiting for a sample *)



(** With a sample in the queue, [read] returns it at once. *)
Lemma queue_get_ready (timeout : option Q) (turns : nat) (s : t) item rest :
  (∀ seconds, timeout = Some seconds → (0 <= seconds)%Q) →
  items (queue s) = item :: rest →
  queue_get timeout turns s =
    Ok item (set_queue (mkQueue (maxsize (queue s)) rest) s) [QueueGet item].
Proof.
  intros Htimeout Hitems. unfold queue_get.
  destruct timeout as [seconds|].
  - specialize (Htimeout seconds eq_refl). apply Qle_bool_iff in Htimeout.
    rewrite Htimeout. destruct (if Qle_bool seconds 0 then _ else _); cbn; by rewrite Hitems.
  - destruct turns; cbn; by rewrite Hitems.
Qed.

Lemma read_ready (timeout : option Q) (turns : nat) (s : t) item rest :
  (∀ seconds, timeout = Some seconds → (0 <= seconds)%Q) →
  isConnected s = true → queueModeEnabled s = true → items (queue s) = item :: rest →
  read timeout turns s =
    Ok item (set_queue (mkQueue (maxsize (queue s)) rest) s) [QueueGet item].
Proof.
  intros Htimeout Hconn Hmode Hitems. unfold read. unmonad. cbn. rewrite Hconn. cbn.
  rewrite Hmode. cbn. by rewrite (queue_get_ready timeout turns s item rest).
Qed.



(** A size that cannot be resized to makes [preprocess] raise. *)
Lemma preprocess_fails (s : t) (grabbed : Image) :
  ¬ resizable s → preprocess grabbed s = Raise Cv2Error s [].
Proof.
  unfold resizable, preprocess, cv2_resize. unmonad. intros Hsize.
  destruct (size s) as [sq|] eqn:Hsq; cbn; [|done].
  rewrite elems_slice_to.
  destruct (take 2 (elems sq)) as [|w [|h [|]]] eqn:Htake; try done.
  destruct (0 <? w) eqn:Hw; [|done]. destruct (0 <? h) eqn:Hh; [|done].
  exfalso. apply Hsize. exists w, h. by rewrite Z.ltb_lt in Hw, Hh.
Qed.

(** *** Stopping a loop that can move *)

Lemma stop_again (s : t) (patience : nat) :
  running s = false → readLock s = false → pauseEvent s = true →
  stop patience s = Ok tt s [EventSet PauseEvent].
Proof.
  intros Hrun Hlock Hpause. unfold stop, resume, event_set. unmonad.
  destruct s. cbn in *. by subst.
Qed.

Lemma stop_at_loop (s : t) (h : VideoCapture) (patience : nat) :
  thread s = Started AtLoop → running s = true → readLock s = false →
  device s = Some h →
  ∃ s', stop (S patience) s =
          Ok tt s' [EventSet PauseEvent; EventClear Running; EventSet ReadEvent;
                    DeviceRelease] ∧
        thread s' = Finished ∧ running s' = false ∧ isConnected s' = false ∧
        ∀ again, stop again s' = Ok tt s' [EventSet PauseEvent].
Proof.
  intros Hth Hrun Hlock Hdev.
  unfold stop, resume, event_set, event_clear. unmonad.
  destruct s. cbn in *. subst. cbn.
  unfold thread_step, run_epilogue, device_release, event_set, settle. unmonad. cbn.
  destruct patience; cbn.
  all: eexists; (split; [reflexivity|]); split_and!; try done.
  all: intros again; by apply stop_again.
Qed.

(** *** The sample objects are reachable *)



Lemma jammed_camera_reachable : reachable jammed_camera.
Proof.
  assert (jammed_camera =
          after LoopStep (after LoopStep (after LoopStep (after CallStart
            (fresh (settings None None false true 1) [OpenHandle (webcam 5)])))))
    as -> by (vm_compute; reflexivity).
  do 4 apply reachable_after.
  apply (reachable_new text_size (settings None None false true 1)
           [OpenHandle (webcam 5)] _ [EventSet PauseEvent]).
  vm_compute. reflexivity.
Qed.

(** ** The claims *)




(** C2 (as amended). With queue mode enabled and a capacity [K > 0], the
    enqueue of a produced sample is a blocking put. When [K + M] samples
    ([M ≥ 1]) arrive and nothing is consumed, at most [K] samples are ever
    available for dequeue; the producer loop completes its first [K] turns,
    the lock free after each, and from the next sample on it is suspended
    in the enqueue, holding the acquisition lock, until a sample is
    dequeued: a [read()] then takes the oldest sample and the next step of
    the loop completes the pending enqueue and frees the lock. With
    [K ≤ 0] the queue is unbounded: the loop enqueues every sample. *)
Theorem queue_backpressure (K : Z) (s : t) (grabbed : list Image) (rest : list Grab) :
  producing s → maxsize (queue s) = K → items (queue s) = [] →
  device s = Some (mkCapture true (map Delivers grabbed ++ rest)) →
  (0 < K → K < Z.of_nat (length grabbed) →
   (∀ n, Z.of_nat (length (items (queue (thread_run n s).1))) ≤ K) ∧
   (∀ n, Z.of_nat n ≤ K →
      thread (thread_run n s).1 = Started AtLoop ∧
      readLock (thread_run n s).1 = false ∧
      items (queue (thread_run n s).1) = map (published s) (take n grabbed)) ∧
   (∀ n, K < Z.of_nat n →
      let s' := (thread_run n s).1 in
      ∃ oldest queued pending,
        map (published s) (take (S (Z.to_nat K)) grabbed) = oldest :: queued ++ [pending] ∧
        thread s' = Started (Blocked (WaitPut pending)) ∧ readLock s' = true ∧
        items (queue s') = oldest :: queued ∧
        ∀ timeout turns, (0 <= timeout)%Q →
          ∃ s'', read (Some timeout) turns s' = Ok oldest s'' [QueueGet oldest] ∧
                 thread (thread_step s'').1 = Started AtLoop ∧
                 readLock (thread_step s'').1 = false ∧
                 items (queue (thread_step s'').1) = queued ++ [pending])) ∧
  (K ≤ 0 → ∀ n, (n ≤ length grabbed)%nat →
     thread (thread_run n s).1 = Started AtLoop ∧
     items (queue (thread_run n s).1) = map (published s) (take n grabbed)).
Proof.
  intros Hprod Hmax Hempty Hdev.
  assert (∀ n, (n ≤ length grabbed)%nat → (0 < K → Z.of_nat n ≤ K) →
    let s' := (thread_run n s).1 in
    producing s' ∧ same_config s s' ∧ maxsize (queue s') = K ∧
    device s' = Some (mkCapture true (map Delivers (drop n grabbed) ++ rest)) ∧
    items (queue s') = map (published s) (take n grabbed)) as Hprefix.
  { intros n Hn HnK.
    pose proof (produce_run K (take n grabbed) (map Delivers (drop n grabbed) ++ rest) s
                  Hprod Hmax) as H.
    rewrite length_take, Nat.min_l in H by lia.
    rewrite Hempty in H. cbn [length Nat.add app] in H. apply H; [|done].
    rewrite Hdev, app_assoc, <- map_app. by rewrite take_drop. }
  split.
  - intros K_positive Hmany. split_and!.
    + intros n. apply bounded_run; [done|]. split; [done|]. rewrite Hempty. cbn [length]. lia.
    + intros n Hn. destruct (Hprefix n) as ((Hth & _ & _ & Hlock & _) & _ & _ & _ & Hitems);
        [lia|done|]. done.
    + intros n Hn.
      replace n with (Z.to_nat K + S (n - S (Z.to_nat K)))%nat by lia.
      rewrite thread_run_add.
      destruct (Hprefix (Z.to_nat K)) as (Hp & Hsame & Hm & Hd & Hitems); [lia|lia|].
      set (s1 := (thread_run (Z.to_nat K) s).1) in *.
      destruct (drop (Z.to_nat K) grabbed) as [|im more] eqn:Hdrop.
      { apply (f_equal length) in Hdrop. rewrite length_drop in Hdrop.
        cbn [length] in Hdrop. lia. }
      assert (take (S (Z.to_nat K)) grabbed = take (Z.to_nat K) grabbed ++ [im]) as Htake.
      { apply take_S_r. rewrite <- (Nat.add_0_r (Z.to_nat K)), <- lookup_drop, Hdrop. done. }
      assert (length (items (queue s1)) = Z.to_nat K) as Hlen.
      { rewrite Hitems, length_map, length_take. lia. }
      assert (full (queue s1) = true) as Hfull.
      { apply full_iff. rewrite Hm, Hlen. lia. }
      cbn [map app] in Hd.
      destruct (produce_block s1 im (map Delivers more ++ rest) Hp Hd Hfull)
        as (Hth & Hq & Hlock & Hpause & Hsleep & Hconn & Hmode).
      rewrite (published_same s s1) in Hth by done.
      cbn [thread_run].
      destruct (thread_step s1) as [s2 tr2]. cbn [fst snd] in Hth, Hq, Hlock.
      cbn [fst snd] in Hpause, Hsleep, Hconn, Hmode.
      rewrite (blocked_put_run _ _ (published s im)) by (by rewrite ?Hq). cbn [fst snd].
      destruct (items (queue s1)) as [|oldest queued] eqn:Hqueue.
      { cbn [length] in Hlen. lia. }
      exists oldest, queued, (published s im).
      split_and!; [| done | done | by rewrite Hq, Hqueue |].
      { rewrite Htake, map_app, <- Hitems. done. }
      intros timeout turns Htimeout.
      assert (items (queue s2) = oldest :: queued) as Hitems2 by (by rewrite Hq, Hqueue).
      assert (maxsize (queue s2) = K) as Hmax2 by (by rewrite Hq).
      cbn [length] in Hlen.
      exists (set_queue (mkQueue (maxsize (queue s2)) queued) s2). split.
      { apply read_ready; [by intros ? [= <-] | done..]. }
      rewrite (blocked_put_goes_on _ (published s im)).
      * unfold enqueued. destruct s2. cbn in *. done.
      * by destruct s2.
      * apply not_full_iff. right. destruct s2. cbn in *. lia.
      * by destruct s2.
      * unfold can_sleep in *. by destruct s2.
  - intros K_unbounded n Hn.
    destruct (Hprefix n) as ((Hth & _) & _ & _ & _ & Hitems); [done|lia|]. done.
Qed.

Lemma queue_backpressure_witness :
  producing queue_camera_1 ∧
  thread (thread_run 4 queue_camera_1).1 = Started (Blocked (WaitPut (Some (Raw 1)))) ∧
  readLock (thread_run 4 queue_camera_1).1 = true ∧
  items (queue (thread_run 4 queue_camera_1).1) = [Some (Raw 0)] ∧
  producing queue_camera_0 ∧
  items (queue (thread_run 3 queue_camera_0).1) = [Some (Raw 0); Some (Raw 1); Some (Raw 2)].
Proof.
  assert (producing queue_camera_1) as Hprod1.
  { unfold producing, can_sleep. split_and!; first [reflexivity | by left | exact I]. }
  assert (producing queue_camera_0) as Hprod0.
  { unfold producing, can_sleep. split_and!; first [reflexivity | by left | exact I]. }
  destruct (queue_backpressure 1 queue_camera_1 [Raw 0; Raw 1; Raw 2; Raw 3; Raw 4] []
              Hprod1 eq_refl eq_refl eq_refl) as [Hbounded _].
  destruct (Hbounded ltac:(lia) ltac:(simpl; lia)) as (_ & _ & Hblocked).
  destruct (Hblocked 4%nat ltac:(lia))
    as (oldest & queued & pending & Hsamples & Hth & Hlock & Hitems & _).
  destruct (queue_backpressure 0 queue_camera_0 [Raw 0; Raw 1; Raw 2; Raw 3; Raw 4] []
              Hprod0 eq_refl eq_refl eq_refl) as [_ Hunbounded].
  destruct (Hunbounded ltac:(lia) 3%nat ltac:(simpl; lia)) as [_ Hall].
  vm_compute in Hsamples. destruct queued; [|destruct queued; discriminate].
  injection Hsamples as <- <-.
  split; [exact Hprod1|]. split; [exact Hth|]. split; [exact Hlock|].
  split; [exact Hitems|]. split; [exact Hprod0|]. exact Hall.
Defined.

(** C2 as stated fails: with capacity 1 the producer loop is suspended in
    its second enqueue, holding the acquisition lock, and stays there; with
    capacity 0 the queue is unbounded and holds three samples after three
    turns. *)
Lemma enqueue_blocks_producer :
  (queueModeEnabled queue_camera_1 = true ∧ maxsize (queue queue_camera_1) = 1 ∧
   thread (thread_run 2 queue_camera_1).1 = Started (Blocked (WaitPut (Some (Raw 1)))) ∧
   readLock (thread_run 2 queue_camera_1).1 = true ∧
   thread (thread_run 20 queue_camera_1).1 = Started (Blocked (WaitPut (Some (Raw 1))))) ∧
  (queueModeEnabled queue_camera_0 = true ∧ maxsize (queue queue_camera_0) = 0 ∧
   length (items (queue (thread_run 3 queue_camera_0).1)) = 3%nat).
Proof. vm_compute. done. Qed.










(** C6 (the code departs from the claim). On a device in queue mode whose
    loop is suspended in the enqueue of a sample into the full queue,
    [stop()] never returns, however long the caller waits: it releases the
    lock and clears the running signal, and then waits in the join for a loop
    that cannot move. The loop has not exited and the handle is still
    opened. *)
Theorem stop_hangs_on_full_queue (patience : nat) :
  ∃ s', stop patience jammed_camera =
          Block WaitJoin s' [EventSet PauseEvent; LockRelease; EventClear Running] ∧
        thread s' = Started (Blocked (WaitPut (Some (Raw 1)))) ∧ isConnected s' = true.
Proof.
  unfold stop, resume, event_set, event_clear, lock_release. unmonad.
  cbn. rewrite (join_blocked_put _ _ (Some (Raw 1))) by reflexivity.
  cbn. eexists. split; [reflexivity|]. done.
Qed.




(** C8. For every registry and every name that is not in its device mapping,
    the by-name operations return without raising and leave the registry,
    hence every device in it, unchanged. *)
Theorem unknown_name_is_ignored (cs : Cameras.t) (deviceName : string) (patience : nat)
    (fps : option Z) :
  Cameras.devices cs !! deviceName = None →
  Cameras.startOnly deviceName cs = Ok tt cs [] ∧
  Cameras.stopOnly patience deviceName cs = Ok tt cs [] ∧
  Cameras.pauseOnly deviceName cs = Ok tt cs [] ∧
  Cameras.resumeOnly deviceName cs = Ok tt cs [] ∧
  Cameras.setSpeedOnly deviceName fps cs = Ok tt cs [] ∧
  Cameras.getDevice deviceName cs = Ok None cs [] ∧
  Cameras.getFrameOf deviceName cs = Ok None cs [] ∧
  Cameras.getFrame64Of deviceName cs = Ok None cs [].
Proof.
  intros Hnone.
  unfold Cameras.startOnly, Cameras.stopOnly, Cameras.pauseOnly, Cameras.resumeOnly,
    Cameras.setSpeedOnly, Cameras.getDevice, Cameras.getFrameOf, Cameras.getFrame64Of,
    Cameras.contains.
  unmonad. cbn. rewrite Hnone.
  rewrite bool_decide_eq_false_2 by (intros [? ?]; discriminate).
  cbn. done.
Qed.

Lemma unknown_name_is_ignored_witness :
  Cameras.devices registry !! "nonexistent" = None ∧
  Cameras.pauseOnly "nonexistent" registry = Ok tt registry [].
Proof.
  assert (Cameras.devices registry !! "nonexistent" = None) as Hnone
    by (vm_compute; reflexivity).
  split; [exact Hnone|].
  apply (unknown_name_is_ignored registry "nonexistent" 0%nat None Hnone).
Defined.

(** C9 (as amended). When the handle's read reports failure during an
    acquisition step, the step leaves the stored frame, the queue and the
    secondary encoding as they were, emits no event and enqueues nothing,
    sets the read event and releases the acquisition lock. The next turn of
    the loop is the reconnect sequence only if the handle then reports
    itself not opened; if it still reports itself opened, the next turn is
    another acquisition attempt on the same handle. *)
Theorem failed_read_keeps_state (s s1 : t) (tr1 : Trace) :
  readLock s = false →
  device_read s = Ok None s1 tr1 →
  let s' := set_readEvent true s1 in
  update s = Ok tt s' [EventClear ReadEvent; LockAcquire; DeviceRead false;
                       EventSet ReadEvent; LockRelease] ∧
  frame s' = frame s ∧ queue s' = queue s ∧ frame64 s' = frame64 s ∧
  readEvent s' = true ∧ readLock s' = false ∧
  (if isConnected s'
   then ∃ ok rest, result_trace (run_body s') =
                   EventClear ReadEvent :: LockAcquire :: DeviceRead ok :: rest
   else ∃ rest, result_trace (run_body s') =
                EventClear ReadEvent :: open_trace (sources s' !! 0%nat) ++ rest).
Proof.
  intros Hlock Hread s'. subst s'.
  destruct (device_read_frame _ _ _ _ Hread) as (Hf & Hq & H64 & Hl & _).
  split; [|split_and!]; try (by destruct s1; cbn in *; congruence).
  - destruct s. cbn in *. subst.
    unfold update, update_acquired, update_epilogue, event_clear, event_set, lock_acquire,
      lock_release, device_read in *.
    unmonad. cbn in *.
    destruct device0 as [[[] [|[]]]|]; cbn in *; by inversion Hread.
  - assert (readLock (set_readEvent true s1) = false) as Hfree
      by (destruct s1; cbn in *; congruence).
    unfold run_body. rewrite trace_bind. cbn [gets result_trace app].
    destruct (isConnected (set_readEvent true s1)) eqn:Hconn.
    + rewrite trace_bind.
      destruct (device (set_readEvent true s1)) as [h|] eqn:Hdev;
        [|unfold isConnected in Hconn; by rewrite Hdev in Hconn].
      destruct (update_starts _ h Hfree Hdev) as (ok & rest & ->). cbn. eauto.
    + rewrite trace_bind.
      unfold reconnect, event_clear, loadDevice, open_trace. unmonad.
      destruct s1. cbn in *.
      destruct sources0 as [|[|h] more]; cbn.
      all: repeat match goal with
           | |- context [time_sleep ?d ?x] => destruct (time_sleep d x)
           end; cbn; eauto.
Qed.

Lemma failed_read_keeps_state_witness :
  readLock stalled_camera = false ∧
  (∃ s', update stalled_camera =
         Ok tt s' [EventClear ReadEvent; LockAcquire; DeviceRead false;
                   EventSet ReadEvent; LockRelease] ∧
         frame s' = frame stalled_camera ∧ isConnected s' = false ∧
         ∃ rest, result_trace (run_body s') =
                 EventClear ReadEvent :: VideoCaptureOpen :: rest).
Proof.
  split; [reflexivity|].
  pose proof (failed_read_keeps_state stalled_camera
                (result_state (device_read stalled_camera)) [DeviceRead false]
                eq_refl eq_refl) as H.
  eexists. split; [apply H|]. split; [apply H|]. split; [reflexivity|].
  destruct H as (_ & _ & _ & _ & _ & _ & H). exact H.
Defined.

(** C9 as stated fails: a handle whose read fails while it still reports
    itself opened is not reopened; the next turn of the loop is another
    acquisition attempt, with no reconnect sequence. *)
Lemma failed_read_without_reconnect :
  isConnected flaky_camera = true ∧
  (∃ s', update flaky_camera =
         Ok tt s' [EventClear ReadEvent; LockAcquire; DeviceRead false;
                   EventSet ReadEvent; LockRelease] ∧
         isConnected s' = true ∧
         result_trace (run_body s') =
           [EventClear ReadEvent; LockAcquire; DeviceRead true; EventSet ReadEvent;
            LockRelease; Sleep (1 # 10); EventWait PauseEvent]).
Proof. split; [reflexivity|]. eexists. vm_compute. done. Qed.

(** C10. A two-element tuple passed as [size] makes [createBackground]
    raise [AttributeError] (the reversed size is extended in place, which a
    tuple does not support), and so do [enableBackground] and the
    construction with [backgroundIsEnabled=True]; two-element lists and
    three-element sizes of real dimensions succeed. *)
Theorem tuple_size_breaks_background (getTextSize : string → Z → Q → Z → Z * Z)
    (text : string) (font : Z) (fontScale : Q) (fontColor : list Z) (thickness : Z)
    (s : t) (w h c : Z) :
  0 ≤ w → 0 ≤ h → 0 ≤ c →
  createBackground getTextSize text font fontScale fontColor thickness
      (Some (PyTuple [w; h])) s = Raise AttributeError s [] ∧
  enableBackground getTextSize text font fontScale fontColor thickness
      (Some (PyTuple [w; h])) s = Raise AttributeError (set_backgroundIsEnabled true s) [] ∧
  (∀ world, ∃ s' tr,
     __init__ getTextSize (settings (Some 10) (Some (PyTuple [w; h])) true false 96) world =
     Raise AttributeError s' tr) ∧
  createBackground getTextSize text font fontScale fontColor thickness
      (Some (PyList [w; h])) s =
    Ok (PutText (Zeros [h; w; 3]) text
          (centred (getTextSize text font fontScale thickness) h w)
          font fontScale fontColor thickness) s [] ∧
  createBackground getTextSize text font fontScale fontColor thickness
      (Some (PyList [h; w; c])) s =
    Ok (PutText (Zeros [h; w; c]) text
          (centred (getTextSize text font fontScale thickness) h w)
          font fontScale fontColor thickness) s [] ∧
  createBackground getTextSize text font fontScale fontColor thickness
      (Some (PyTuple [h; w; c])) s =
    Ok (PutText (Zeros [h; w; c]) text
          (centred (getTextSize text font fontScale thickness) h w)
          font fontScale fontColor thickness) s [].
Proof.
  intros Hw Hh Hc. split_and!.
  - apply createBackground_pair_tuple.
  - unfold enableBackground. unmonad. cbv beta iota.
    by rewrite createBackground_pair_tuple.
  - intros world. unfold __init__. eexists _, _. reflexivity.
  - by apply createBackground_pair_list.
  - by apply createBackground_three.
  - by apply createBackground_three.
Qed.

Lemma tuple_size_breaks_background_witness :
  createBackground text_size "Device not available" 0 (1 # 2) [255; 255; 255] 1
    (Some (PyTuple [640; 480])) default_camera = Raise AttributeError default_camera [] ∧
  createBackground text_size "Device not available" 0 (1 # 2) [255; 255; 255] 1
    (Some (PyList [640; 480])) default_camera =
  Ok (PutText (Zeros [480; 640; 3]) "Device not available" (270, 230) 0 (1 # 2)
        [255; 255; 255] 1) default_camera [].
Proof.
  pose proof (tuple_size_breaks_background text_size "Device not available" 0 (1 # 2)
                [255; 255; 255] 1 default_camera 640 480 3
                ltac:(lia) ltac:(lia) ltac:(lia)) as H.
  split; apply H.
Defined.

(** ** More of the engine *)

(** *** Stopping *)

(** X1. [stop()] on a device whose running signal is not set (never
    started, or already stopped) returns without joining any thread: it sets
    the pause signal, frees the lock if it was held, and leaves the thread,
    the handle, the frame and the queue alone. *)
Theorem stop_without_loop (s : t) (patience : nat) :
  running s = false →
  ∃ tr, stop patience s = Ok tt (set_readLock false (set_pauseEvent true s)) tr ∧
        tr = EventSet PauseEvent :: (if readLock s then [LockRelease] else []).
Proof.
  intros Hrun. unfold stop, resume, event_set, lock_release. unmonad.
  destruct s. cbn in *. subst. destruct readLock0; cbn; eauto.
Qed.

Lemma stop_without_loop_witness :
  running default_camera = false ∧
  stop 3 default_camera = Ok tt default_camera [EventSet PauseEvent] ∧
  thread default_camera = NotStarted.
Proof.
  split; [reflexivity|]. split; [|reflexivity].
  destruct (stop_without_loop default_camera 3 eq_refl) as (tr & Hstop & ->).
  exact Hstop.
Defined.

(** X2. [stop()] on a device whose loop is at the top of a turn returns as
    soon as the caller waits for one step of the loop: the loop has exited,
    queue mode is switched off, the handle is released; a further [stop()]
    returns at once and changes nothing. *)
Theorem stop_ends_loop (s : t) (h : VideoCapture) (patience : nat) :
  thread s = Started AtLoop → running s = true → readLock s = false →
  device s = Some h →
  ∃ s', stop (S patience) s =
          Ok tt s' [EventSet PauseEvent; EventClear Running; EventSet ReadEvent;
                    DeviceRelease] ∧
        thread s' = Finished ∧ running s' = false ∧ queueModeEnabled s' = false ∧
        isConnected s' = false ∧ frame s' = frame s ∧
        ∀ again, stop again s' = Ok tt s' [EventSet PauseEvent].
Proof.
  intros Hth Hrun Hlock Hdev.
  unfold stop, resume, event_set, event_clear. unmonad.
  destruct s. cbn in *. subst. cbn.
  unfold thread_step, run_epilogue, device_release, event_set, settle. unmonad. cbn.
  destruct patience; cbn.
  all: eexists; (split; [reflexivity|]); split_and!; try done.
  all: intros again; by apply stop_again.
Qed.

Lemma stop_ends_loop_witness :
  thread looping_camera = Started AtLoop ∧ running looping_camera = true ∧
  ∃ s', result_state (stop 1 looping_camera) = s' ∧ thread s' = Finished ∧
        isConnected s' = false.
Proof.
  split; [reflexivity|]. split; [reflexivity|].
  destruct (stop_ends_loop looping_camera (mkCapture true [Delivers (Raw 1); Delivers (Raw 2);
              Delivers (Raw 3); Delivers (Raw 4)]) 0 eq_refl eq_refl eq_refl eq_refl)
    as (s' & Hstop & Hth & _ & _ & Hconn & _).
  exists s'. rewrite Hstop. done.
Defined.



(** X4. [stop()] called after [start()] but before the loop thread has set
    its running signal does not stop anything: it returns at once, and the
    spawned loop then enters [run] and keeps running. *)
Theorem stop_misses_spawned_loop (s : t) (patience : nat) :
  thread s = Started AtEntry → running s = false → readLock s = false →
  stop patience s = Ok tt (set_pauseEvent true s) [EventSet PauseEvent] ∧
  thread (thread_step (set_pauseEvent true s)).1 = Started AtLoop ∧
  running (thread_step (set_pauseEvent true s)).1 = true.
Proof.
  intros Hth Hrun Hlock.
  unfold stop, resume, event_set, thread_step, run_prologue, loadDevice, settle. unmonad.
  destruct s. cbn in *. subst. cbn.
  split; [done|]. by destruct sources0 as [|[|h] rest].
Qed.

Lemma stop_misses_spawned_loop_witness :
  thread spawned_camera = Started AtEntry ∧
  stop 5 spawned_camera = Ok tt spawned_camera [EventSet PauseEvent] ∧
  running (thread_step spawned_camera).1 = true.
Proof.
  split; [reflexivity|].
  destruct (stop_misses_spawned_loop spawned_camera 5 eq_refl eq_refl eq_refl)
    as (Hstop & _ & Hrun).
  split; [exact Hstop | exact Hrun].
Defined.

(** *** Pausing *)

(** X5. A loop suspended in the pause wait does nothing, however many steps
    it is given, until [resume()] is called; its first step after
    [resume()] takes it back to the top of the loop, still running. *)
Theorem paused_loop_waits (s : t) (n : nat) :
  thread s = Started (Blocked (WaitEvent PauseEvent)) → pauseEvent s = false →
  thread_run n s = (s, []) ∧
  thread_step (result_state (resume s)) =
    (set_thread (Started AtLoop) (set_pauseEvent true s), [EventWait PauseEvent]).
Proof.
  intros Hth Hpause. split.
  - induction n as [|n IH]; [done|].
    cbn [thread_run].
    assert (thread_step s = (s, [])) as ->.
    { unfold thread_step. rewrite Hth. unfold resume_from, event_wait. cbn.
      rewrite Hpause. cbn. destruct s. cbn in *. by subst. }
    by rewrite IH.
  - unfold resume, event_set, thread_step, resume_from, event_wait. unmonad.
    destruct s. cbn in *. by subst.
Qed.

Lemma paused_loop_waits_witness :
  thread paused_camera = Started (Blocked (WaitEvent PauseEvent)) ∧
  pauseEvent paused_camera = false ∧
  thread_run 7 paused_camera = (paused_camera, []).
Proof.
  split; [reflexivity|]. split; [reflexivity|].
  apply (paused_loop_waits paused_camera 7); reflexivity.
Defined.

(** *** The rate *)

(** X6. [setSpeed(n)] with [n ≠ 0] sets fps to [n] and both the delay and
    the default delay to [1/n]; [setSpeed(0)] raises [ZeroDivisionError]
    after fps has been set to 0, the delays keeping their old values;
    [setSpeed(None)] clears fps and keeps the delays. *)
Theorem setSpeed_cases (s : t) (n : Z) :
  (n ≠ 0 →
   setSpeed (Some n) s =
     Ok tt (set_delay (1 / inject_Z n) (set_defaultDelay (1 / inject_Z n)
              (set_fps (Some n) s))) []) ∧
  setSpeed (Some 0) s = Raise ZeroDivisionError (set_fps (Some 0) s) [] ∧
  setSpeed None s = Ok tt (set_fps None s) [].
Proof.
  unfold setSpeed, one_over. unmonad. split_and!; [|done..].
  intros Hn. apply Z.eqb_neq in Hn. cbn -[Z.eqb]. rewrite Hn. by destruct s.
Qed.

Lemma setSpeed_cases_witness :
  fps (result_state (setSpeed (Some 25) looping_camera)) = Some 25 ∧
  delay (result_state (setSpeed (Some 25) looping_camera)) = (1 / inject_Z 25)%Q.
Proof.
  destruct (setSpeed_cases looping_camera 25) as (Hset & _).
  rewrite Hset by lia. split; reflexivity.
Defined.

(** *** Construction *)

Lemma enableBackground_touches_background gts text font fontScale fontColor thickness size s :
  ∃ enabled image,
    result_state (enableBackground gts text font fontScale fontColor thickness size s) =
    set_background image (set_backgroundIsEnabled enabled s).
Proof.
  unfold enableBackground.
  pose proof (preserves_createBackground (P := λ x, x = set_backgroundIsEnabled true s)
                gts text font fontScale fontColor thickness size
                (set_backgroundIsEnabled true s) eq_refl) as Hcreate.
  unfold mbind, M_bind. cbn.
  destruct (createBackground gts text font fontScale fontColor thickness size
              (set_backgroundIsEnabled true s)) as [image s1 tr| |]; cbn in *; subst.
  - exists true, (Some image). by destruct s.
  - exists true, (background s). by destruct s.
  - exists true, (background s). by destruct s.
Qed.

(** X7. Every construction that succeeds yields a device that is not
    started, not running, not paused, without frame and not connected; on it
    [read()] returns the fallback image (or nothing) whatever the timeout,
    and [stop()] returns at once. A rate of 0 makes the construction raise
    [ZeroDivisionError]. *)
Theorem constructed_device_is_idle gts (a : Args) (world : list OpenAttempt) (s : t)
    (tr : Trace) :
  __init__ gts a world = Ok tt s tr →
  arg_fps a ≠ Some 0 ∧
  thread s = NotStarted ∧ running s = false ∧ pauseEvent s = true ∧
  frame s = None ∧ isConnected s = false ∧ items (queue s) = [] ∧
  (∀ timeout turns, read timeout turns s = Ok (background s) s []) ∧
  (∀ patience, stop patience s = Ok tt s [EventSet PauseEvent]).
Proof.
  unfold __init__. intros Hinit.
  apply bind_ok in Hinit as (d & s1 & tr1 & tr2 & Hd & Hrest & _).
  apply bind_ok in Hrest as ([] & sA & ? & ? & [= <- <-] & Hrest & _).
  apply bind_ok in Hrest as (own & sB & ? & ? & [= <- <- <-] & Hrest & _).
  apply bind_ok in Hrest as ([] & sC & ? & tr3 & [= <- <-] & Hrest & _).
  apply bind_ok in Hrest as ([] & sD & ? & tr4 & [= <- <-] & Hrest & _).
  assert (s1 = allocate a world ∧ arg_fps a ≠ Some 0) as [-> Hfps].
  { destruct (arg_fps a) as [n|].
    - unfold one_over in Hd. destruct (n =? 0) eqn:Hn; [done|].
      apply Z.eqb_neq in Hn. injection Hd as _ <- _. split; congruence.
    - by injection Hd as _ <- _. }
  assert (∃ enabled image,
            s = set_background image (set_backgroundIsEnabled enabled
                  (set_pauseEvent true (set_defaultDelay (delay (set_delay d (allocate a world)))
                     (set_delay d (allocate a world)))))) as (enabled & image & ->).
  { unfold when in Hrest. destruct (arg_backgroundIsEnabled a).
    - apply bind_ok in Hrest as (sz & sE & ? & tr5 & [= <- <-] & Hrest & _).
      match type of Hrest with
      | enableBackground ?g ?x1 ?x2 ?x3 ?x4 ?x5 ?x6 ?x7 = _ =>
          destruct (enableBackground_touches_background g x1 x2 x3 x4 x5 x6 x7)
            as (enabled & image & Hbg)
      end.
      rewrite Hrest in Hbg. cbn [result_state] in Hbg. exists enabled, image. exact Hbg.
    - injection Hrest as <- _. eexists (arg_backgroundIsEnabled a), None. reflexivity. }
  split; [done|]. cbn. split_and!; done.
Qed.

Lemma constructed_device_is_idle_witness :
  isConnected default_camera = false ∧
  read (Some 0%Q) 0 default_camera = Ok None default_camera [].
Proof.
  assert (__init__ text_size defaults [OpenHandle (webcam 5)] =
          Ok tt default_camera [EventSet PauseEvent]) as Hinit by (vm_compute; reflexivity).
  destruct (constructed_device_is_idle _ _ _ _ _ Hinit)
    as (_ & _ & _ & _ & _ & Hconn & _ & Hread & _).
  split; [exact Hconn | exact (Hread (Some 0%Q) 0%nat)].
Defined.

(** X8. A rate of 0 is refused at construction: [Camera(fps=0)] raises
    [ZeroDivisionError]. *)
Theorem zero_fps_is_refused gts (a : Args) (world : list OpenAttempt) :
  arg_fps a = Some 0 →
  __init__ gts a world = Raise ZeroDivisionError (allocate a world) [].
Proof. intros Hfps. unfold __init__, one_over. unmonad. by rewrite Hfps. Qed.

Lemma zero_fps_is_refused_witness :
  ∃ s, __init__ text_size (settings (Some 0) None false false 96) [] =
       Raise ZeroDivisionError s [].
Proof.
  eexists. apply (zero_fps_is_refused text_size (settings (Some 0) None false false 96) []).
  reflexivity.
Defined.

(** *** Acquisition *)

(** X9. In latest-only mode a successful acquisition step stores the
    grabbed frame after the resize to the first two elements of the
    configured size, the horizontal flip, the vertical flip and the user
    transform, each only if configured and in this order; it emits
    [frame-ready] with the stored frame, then [frame-available], exactly
    when the emitter is enabled, leaves the queue alone, and ends with the
    read event set and the lock free; [read()] then returns the stored
    frame. *)
Theorem successful_read_stores_frame (s : t) (grabbed : Image) (rest : list Grab)
    (timeout : option Q) (turns : nat) :
  readLock s = false → queueModeEnabled s = false →
  device s = Some (mkCapture true (Delivers grabbed :: rest)) →
  (∀ dims, size s = Some dims → ∃ w h, take 2 (elems dims) = [w; h] ∧ 0 < w ∧ 0 < h) →
  let resized :=
    match size s with
    | Some dims => Resize grabbed (take 2 (elems dims))
    | None => grabbed
    end in
  let mirrored := if flipX s then Flip resized 1 else resized in
  let upturned := if flipY s then Flip mirrored 0 else mirrored in
  let stored :=
    match processing s with
    | Some transform => transform upturned
    | None => upturned
    end in
  ∃ s', update s =
          Ok tt s' ([EventClear ReadEvent; LockAcquire; DeviceRead true] ++
                    (if emitterIsEnabled s
                     then [Emit "frame-ready" (FrameOf (name s) (Some stored));
                           Emit "frame-available" (NameOf (name s))]
                     else []) ++
                    [EventSet ReadEvent; LockRelease]) ∧
        getFrame s' = Some stored ∧ queue s' = queue s ∧
        readLock s' = false ∧ readEvent s' = true ∧
        device s' = Some (mkCapture true rest) ∧
        read timeout turns s' = Ok (Some stored) s' [].
Proof.
  intros Hlock Hmode Hdev Hsize resized mirrored upturned stored.
  assert (resizable s) as Hresizable.
  { unfold resizable. destruct (size s) as [sq|]; [|done]. by apply Hsize. }
  rewrite (update_delivers s grabbed rest Hlock Hdev Hresizable), Hmode.
  assert (published s grabbed = Some stored) as Hpub by reflexivity.
  unfold announce. rewrite Hpub.
  eexists. split; [reflexivity|].
  unfold acquired, read, isConnected, getFrame. rewrite Hpub. unmonad.
  destruct s. cbn in *. subst. done.
Qed.

Lemma successful_read_stores_frame_witness :
  readLock studio_camera = false ∧ queueModeEnabled studio_camera = false ∧
  size studio_camera = Some (PyTuple [320; 240]) ∧ flipX studio_camera = true ∧
  flipY studio_camera = true ∧ processing studio_camera = Some stamp ∧
  emitterIsEnabled studio_camera = true ∧
  ∃ s', update studio_camera =
          Ok tt s'
            [EventClear ReadEvent; LockAcquire; DeviceRead true;
             Emit "frame-ready"
               (FrameOf "studio" (Some (stamp (Flip (Flip (Resize (Raw 0) [320; 240]) 1) 0))));
             Emit "frame-available" (NameOf "studio");
             EventSet ReadEvent; LockRelease] ∧
        getFrame s' = Some (stamp (Flip (Flip (Resize (Raw 0) [320; 240]) 1) 0)) ∧
        read (Some 0%Q) 0 s' =
          Ok (Some (stamp (Flip (Flip (Resize (Raw 0) [320; 240]) 1) 0))) s' [].
Proof.
  split_and!; try reflexivity.
  destruct (successful_read_stores_frame studio_camera (Raw 0)
              [Delivers (Raw 1); Delivers (Raw 2); Delivers (Raw 3); Delivers (Raw 4)]
              (Some 0%Q) 0 eq_refl eq_refl eq_refl)
    as (s' & Hupdate & Hframe & _ & _ & _ & _ & Hread).
  { intros sq [= <-]. exists 320, 240. split_and!; [reflexivity | lia | lia]. }
  exists s'. split; [exact Hupdate|]. split; [exact Hframe | exact Hread].
Defined.

(** X10. The queue is first in, first out: when the loop acquires
    [n ≤ K] frames into an empty queue of capacity [K], the queue holds
    their processed versions in acquisition order, and [read()] returns the
    oldest one and removes it. *)
Theorem queue_is_fifo (K : Z) (s : t) (first : Image) (later : list Image)
    (rest : list Grab) (timeout : Q) (turns : nat) :
  0 < K → (0 <= timeout)%Q →
  producing s → maxsize (queue s) = K → items (queue s) = [] →
  device s = Some (mkCapture true (map Delivers (first :: later) ++ rest)) →
  Z.of_nat (length (first :: later)) ≤ K →
  let s' := (thread_run (length (first :: later)) s).1 in
  items (queue s') = map (published s) (first :: later) ∧
  ∃ s'', read (Some timeout) turns s' =
           Ok (published s first) s'' [QueueGet (published s first)] ∧
         items (queue s'') = map (published s) later.
Proof.
  intros HK Htimeout Hprod Hmax Hempty Hdev Hlen s'.
  destruct (produce_run K (first :: later) rest s Hprod Hmax Hdev)
    as (Hp & _ & _ & Hd & Hitems).
  { intros _. rewrite Hempty. cbn [length Nat.add] in Hlen |- *. lia. }
  fold s' in Hp, Hd, Hitems. rewrite Hempty in Hitems. cbn [app map] in Hitems.
  split; [done|].
  destruct Hp as (_ & _ & _ & _ & _ & Hmode & _).
  clearbody s'. eexists. split.
  - apply read_ready; [by intros ? [= <-] | | done | done].
    unfold isConnected. by rewrite Hd.
  - by destruct s'.
Qed.

Lemma queue_is_fifo_witness :
  producing queue_camera_3 ∧
  items (queue (thread_run 2 queue_camera_3).1) = [Some (Raw 0); Some (Raw 1)] ∧
  ∃ s'', read (Some 0%Q) 0 (thread_run 2 queue_camera_3).1 =
         Ok (Some (Raw 0)) s'' [QueueGet (Some (Raw 0))].
Proof.
  assert (producing queue_camera_3) as Hprod.
  { unfold producing, can_sleep. split_and!; first [reflexivity | by left | exact I]. }
  split; [exact Hprod|].
  destruct (queue_is_fifo 3 queue_camera_3 (Raw 0) [Raw 1]
              [Delivers (Raw 2); Delivers (Raw 3); Delivers (Raw 4)] 0%Q 0)
    as (Hitems & s'' & Hread & _);
    [lia | unfold Qle; simpl; lia | exact Hprod | reflexivity | reflexivity | reflexivity
    | simpl; lia |].
  split; [exact Hitems|]. exists s''. exact Hread.
Defined.

(** X11. A consumer unblocks the producer: when the loop is suspended in
    the enqueue on a full queue, one [read()] takes the oldest sample, and
    the loop's next step completes the pending enqueue, releases the
    acquisition lock and returns to the top of the loop. *)
Theorem consumer_unblocks_producer (s : t) (item pending : option Image)
    (more : list (option Image)) (turns : nat) :
  thread s = Started (Blocked (WaitPut pending)) → pauseEvent s = true → can_sleep s →
  readLock s = true → isConnected s = true → queueModeEnabled s = true →
  items (queue s) = item :: more →
  maxsize (queue s) = Z.of_nat (length (item :: more)) →
  ∃ s1, read (Some 0%Q) turns s = Ok item s1 [QueueGet item] ∧
        thread (thread_step s1).1 = Started AtLoop ∧
        items (queue (thread_step s1).1) = more ++ [pending] ∧
        readLock (thread_step s1).1 = false ∧ readEvent (thread_step s1).1 = true.
Proof.
  intros Hth Hpause Hsleep Hlock Hconn Hmode Hitems Hmax.
  exists (set_queue (mkQueue (maxsize (queue s)) more) s). split.
  { apply read_ready; [intros ? [= <-]; unfold Qle; simpl; lia | done..]. }
  rewrite (blocked_put_goes_on _ pending).
  - unfold enqueued. by destruct s.
  - by destruct s.
  - apply not_full_iff. right. cbn [length] in Hmax. destruct s. cbn in *. lia.
  - by destruct s.
  - unfold can_sleep in *. by destruct s.
Qed.

Lemma consumer_unblocks_producer_witness :
  thread jammed_camera = Started (Blocked (WaitPut (Some (Raw 1)))) ∧
  ∃ s1, read (Some 0%Q) 0 jammed_camera = Ok (Some (Raw 0)) s1 [QueueGet (Some (Raw 0))] ∧
        thread (thread_step s1).1 = Started AtLoop ∧
        items (queue (thread_step s1).1) = [Some (Raw 1)].
Proof.
  split; [reflexivity|].
  assert (can_sleep jammed_camera) as Hsleep by (by left).
  destruct (consumer_unblocks_producer jammed_camera (Some (Raw 0)) (Some (Raw 1)) [] 0
              eq_refl eq_refl Hsleep eq_refl eq_refl eq_refl eq_refl eq_refl)
    as (s1 & Hread & Hth & Hitems & _).
  exists s1. split; [exact Hread|]. split; [exact Hth | exact Hitems].
Defined.

(** *** Reconnection *)



(** *** A rate that cannot be slept *)

(** X13. A negative fps is accepted by the constructor and by [setSpeed],
    but the loop does not survive it: after the first acquisition the delay
    [1/fps < 0] makes [time.sleep] raise [ValueError] in the loop thread,
    which dies with the running signal still set and the handle still
    opened; a later [stop()] returns but releases nothing. *)
Theorem negative_delay_kills_loop (s : t) (grabbed : Image) (rest : list Grab) (n : Z)
    (patience : nat) :
  thread s = Started AtLoop → running s = true → readLock s = false →
  queueModeEnabled s = false → resizable s →
  device s = Some (mkCapture true (Delivers grabbed :: rest)) →
  fps s = Some n → (delay s < 0)%Q →
  let s' := (thread_step s).1 in
  thread s' = Crashed ValueError ∧ running s' = true ∧ isConnected s' = true ∧
  ∃ s'', stop patience s' = Ok tt s'' [EventSet PauseEvent; EventClear Running] ∧
         thread s'' = Crashed ValueError ∧ isConnected s'' = true.
Proof.
  intros Hth Hrun Hlock Hmode Hsize Hdev Hfps Hdelay.
  assert (Qle_bool 0 (delay s) = false) as Hneg.
  { destruct (Qle_bool 0 (delay s)) eqn:E; [|done].
    apply Qle_bool_iff in E. exfalso. by apply (Qlt_not_le _ _ Hdelay). }
  pose proof (update_delivers s grabbed rest Hlock Hdev Hsize) as Hupdate.
  rewrite Hmode in Hupdate.
  assert (∃ tr, thread_step s =
            (set_thread (Crashed ValueError)
               (set_readLock false (set_readEvent true (acquired s grabbed rest))), tr))
    as [tr Hstep].
  { unfold thread_step. rewrite Hth, Hrun.
    unfold run_body. unfold mbind at 1, M_bind at 1. unfold gets at 1. cbn [prepend app].
    assert (isConnected s = true) as -> by (unfold isConnected; by rewrite Hdev).
    unfold mbind at 1, M_bind at 1. rewrite Hupdate.
    unfold applyDelay, time_sleep, acquired. unmonad.
    destruct s. cbn -[Qle_bool published] in *. subst. cbn -[Qle_bool published].
    rewrite Hneg. cbn -[published]. eauto. }
  intros s'. subst s'. rewrite Hstep. clear Hstep Hupdate.
  unfold stop, resume, lock_release, event_clear, event_set, isConnected, acquired.
  unmonad.
  destruct s. cbn -[published] in *. subst. cbn -[published].
  split_and!; try done.
  destruct patience; cbn -[published]; eexists; (split; [reflexivity|]); done.
Qed.

Lemma negative_delay_kills_loop_witness :
  fps backwards_camera = Some (-5) ∧ (delay backwards_camera < 0)%Q ∧
  thread (thread_step backwards_camera).1 = Crashed ValueError ∧
  isConnected (thread_step backwards_camera).1 = true.
Proof.
  assert (delay backwards_camera < 0)%Q as Hneg by (unfold Qlt; simpl; lia).
  split; [reflexivity|]. split; [exact Hneg|].
  destruct (negative_delay_kills_loop backwards_camera (Raw 0)
              [Delivers (Raw 1); Delivers (Raw 2); Delivers (Raw 3); Delivers (Raw 4)]
              (-5) 0 eq_refl eq_refl eq_refl eq_refl I eq_refl eq_refl Hneg)
    as (Hth & _ & Hconn & _).
  split; [exact Hth | exact Hconn].
Defined.

(** *** The fallback image *)

(** X14. [getBackground()] is lazy and creates the image once: disabled, it
    returns nothing; enabled with an image, it returns that image; enabled
    without an image, it creates one with the default text for the device's
    own size, stores it, and returns the stored image from then on. *)
Theorem getBackground_is_lazy gts (s : t) (image : Image) :
  (backgroundIsEnabled s = false → getBackground gts s = Ok None s []) ∧
  (backgroundIsEnabled s = true → background s = Some image →
   getBackground gts s = Ok (Some image) s []) ∧
  (backgroundIsEnabled s = true → background s = None →
   createBackground gts "Device not available" 0 (1 # 2) [255; 255; 255] 1 (size s) s =
     Ok image s [] →
   getBackground gts s = Ok (Some image) (set_background (Some image) s) [] ∧
   getBackground gts (set_background (Some image) s) =
     Ok (Some image) (set_background (Some image) s) []).
Proof.
  unfold getBackground. unmonad. split_and!.
  - intros Hoff. cbn. by rewrite Hoff.
  - intros Hon Hbg. cbn. rewrite Hon. cbn. rewrite Hbg. cbn. by rewrite Hbg.
  - intros Hon Hbg Hcreate. cbn. rewrite Hon. cbn. rewrite Hbg. cbn. rewrite Hcreate. cbn.
    split; [done|]. destruct s. cbn in *. by subst.
Qed.

Lemma getBackground_is_lazy_witness :
  backgroundIsEnabled unlit_camera = true ∧ background unlit_camera = None ∧
  ∃ image,
    image = PutText (Zeros [720; 1280; 3]) "Device not available" (590, 350) 0 (1 # 2)
              [255; 255; 255] 1 ∧
    getBackground text_size unlit_camera =
      Ok (Some image) (set_background (Some image) unlit_camera) [] ∧
    getBackground text_size (set_background (Some image) unlit_camera) =
      Ok (Some image) (set_background (Some image) unlit_camera) [] ∧
    getBackground text_size (result_state (disableBackground unlit_camera)) =
      Ok None (result_state (disableBackground unlit_camera)) [].
Proof.
  split; [reflexivity|]. split; [reflexivity|].
  eexists. split; [reflexivity|].
  destruct (getBackground_is_lazy text_size unlit_camera
              (PutText (Zeros [720; 1280; 3]) "Device not available" (590, 350) 0 (1 # 2)
                 [255; 255; 255] 1)) as (_ & _ & Hlazy).
  destruct (Hlazy eq_refl eq_refl eq_refl) as [Hfirst Hthen].
  split; [exact Hfirst|]. split; [exact Hthen|].
  apply (getBackground_is_lazy text_size (result_state (disableBackground unlit_camera))
           (Zeros [])).
  reflexivity.
Defined.

(** X15. Enabling and disabling the fallback image: once
    [enableBackground] has returned on a device that is not connected,
    [read()] and [getBackground()] return the image it created; after
    [disableBackground()], [read()] returns nothing. *)
Theorem fallback_round_trip gts gts' text font fontScale fontColor thickness size
    (s s1 : t) (tr : Trace) (timeout : option Q) (turns : nat) :
  isConnected s = false →
  enableBackground gts text font fontScale fontColor thickness size s = Ok tt s1 tr →
  ∃ image,
    createBackground gts text font fontScale fontColor thickness size
      (set_backgroundIsEnabled true s) = Ok image (set_backgroundIsEnabled true s) tr ∧
    read timeout turns s1 = Ok (Some image) s1 [] ∧
    getBackground gts' s1 = Ok (Some image) s1 [] ∧
    read timeout turns (result_state (disableBackground s1)) =
      Ok None (result_state (disableBackground s1)) [].
Proof.
  intros Hconn Henable. unfold enableBackground in Henable.
  apply bind_ok in Henable as ([] & sA & ? & tr2 & [= <- <-] & Henable & ->).
  apply bind_ok in Henable as (image & sB & tr3 & ? & Hcreate & [= <- <-] & ->).
  pose proof (preserves_createBackground (P := λ x, x = set_backgroundIsEnabled true s)
                gts text font fontScale fontColor thickness size
                (set_backgroundIsEnabled true s) eq_refl) as Hsame.
  rewrite Hcreate in Hsame. cbn in Hsame. subst sB.
  exists image. rewrite app_nil_r. split; [done|].
  unfold read, getBackground, disableBackground, isConnected in *. unmonad.
  destruct s. cbn in *. rewrite Hconn. done.
Qed.

Lemma fallback_round_trip_witness :
  isConnected default_camera = false ∧
  ∃ s1 image,
    enableBackground text_size "offline" 0 1 [255] 1 (Some (PyList [64; 48])) default_camera =
      Ok tt s1 [] ∧
    read (Some 0%Q) 0 s1 = Ok (Some image) s1 [].
Proof.
  split; [reflexivity|].
  destruct (fallback_round_trip text_size text_size "offline" 0 1 [255] 1
              (Some (PyList [64; 48])) default_camera
              (result_state (enableBackground text_size "offline" 0 1 [255] 1
                               (Some (PyList [64; 48])) default_camera))
              [] (Some 0%Q) 0 eq_refl eq_refl) as (image & _ & Hread & _).
  eexists _, image. split; [reflexivity | exact Hread].
Defined.

(** ** More of the registry *)

Lemma prepend_nil {S A} (r : Result S A) : prepend [] r = r.
Proof. by destruct r. Qed.

(** X16. A by-name operation on a known name runs the device's method on
    that device and keeps what the method did to it, whether it returned,
    raised or blocked; every other device of the registry is untouched and
    the set of names does not change. *)
Theorem by_name_touches_one {A} (cs : Cameras.t) (deviceName : string) (device : t)
    (method : M t A) :
  Cameras.devices cs !! deviceName = Some device →
  let cs' := result_state (Cameras.on_device deviceName method cs) in
  Cameras.devices cs' !! deviceName = Some (result_state (method device)) ∧
  (∀ other, other ≠ deviceName →
            Cameras.devices cs' !! other = Cameras.devices cs !! other) ∧
  dom (Cameras.devices cs') = dom (Cameras.devices cs) ∧
  Cameras.startOnly deviceName cs = Cameras.on_device deviceName start cs ∧
  (∀ patience, Cameras.stopOnly patience deviceName cs =
               Cameras.on_device deviceName (stop patience) cs) ∧
  Cameras.pauseOnly deviceName cs = Cameras.on_device deviceName pause cs ∧
  Cameras.resumeOnly deviceName cs = Cameras.on_device deviceName resume cs ∧
  (∀ fps, Cameras.setSpeedOnly deviceName fps cs =
          Cameras.on_device deviceName (setSpeed fps) cs).
Proof.
  intros Hknown cs'.
  assert (Cameras.devices cs' = <[deviceName := result_state (method device)]>
                                   (Cameras.devices cs)) as Hdevices.
  { subst cs'. unfold Cameras.on_device. rewrite Hknown. by destruct (method device). }
  split_and!.
  - rewrite Hdevices. apply lookup_insert_eq.
  - intros other Hother. rewrite Hdevices. by apply lookup_insert_ne.
  - rewrite Hdevices. apply dom_insert_lookup_L. eauto.
  - unfold Cameras.startOnly, Cameras.contains. unmonad. cbn. rewrite Hknown.
    rewrite bool_decide_eq_true_2 by eauto. cbn. apply prepend_nil.
  - intros patience. unfold Cameras.stopOnly, Cameras.contains. unmonad. cbn. rewrite Hknown.
    rewrite bool_decide_eq_true_2 by eauto. cbn. apply prepend_nil.
  - unfold Cameras.pauseOnly, Cameras.contains. unmonad. cbn. rewrite Hknown.
    rewrite bool_decide_eq_true_2 by eauto. cbn. apply prepend_nil.
  - unfold Cameras.resumeOnly, Cameras.contains. unmonad. cbn. rewrite Hknown.
    rewrite bool_decide_eq_true_2 by eauto. cbn. apply prepend_nil.
  - intros fps. unfold Cameras.setSpeedOnly, Cameras.contains. unmonad. cbn. rewrite Hknown.
    rewrite bool_decide_eq_true_2 by eauto. cbn. apply prepend_nil.
Qed.

Lemma by_name_touches_one_witness :
  Cameras.devices registry !! "front" = Some looping_camera ∧
  Cameras.devices (result_state (Cameras.pauseOnly "front" registry)) !! "front" =
    Some (result_state (pause looping_camera)).
Proof.
  assert (Cameras.devices registry !! "front" = Some looping_camera) as Hknown
    by (vm_compute; reflexivity).
  split; [exact Hknown|].
  destruct (by_name_touches_one registry "front" looping_camera pause Hknown)
    as (Hthis & _ & _ & _ & _ & Hpause & _).
  rewrite Hpause. exact Hthis.
Defined.

(** X17. Looking a device up: [cameras[name]] raises [KeyError] on a name
    that is not in the registry while [getDevice(name)] returns nothing; on
    a known name both return the device, and neither changes the
    registry. *)
Theorem lookup_by_name (cs : Cameras.t) (name : string) :
  match Cameras.devices cs !! name with
  | None =>
      Cameras.__getitem__ name cs = Raise KeyError cs [] ∧
      Cameras.getDevice name cs = Ok None cs []
  | Some device =>
      Cameras.__getitem__ name cs = Ok device cs [] ∧
      Cameras.getDevice name cs = Ok (Some device) cs [] ∧
      Cameras.getFrameOf name cs = Ok (getFrame device) cs []
  end.
Proof.
  destruct (Cameras.devices cs !! name) as [device|] eqn:Hlookup.
  - assert (Cameras.__getitem__ name cs = Ok device cs []) as Hitem.
    { unfold Cameras.__getitem__, Cameras.on_device. rewrite Hlookup. cbn.
      rewrite insert_id by done. by destruct cs. }
    unfold Cameras.getDevice, Cameras.getFrameOf, Cameras.contains. unmonad. cbn.
    rewrite Hlookup, bool_decide_eq_true_2 by eauto. cbn. rewrite Hitem. cbn.
    unfold Cameras.on_device. rewrite Hlookup. cbn.
    rewrite insert_id by done. by destruct cs.
  - unfold Cameras.__getitem__, Cameras.getDevice, Cameras.contains, Cameras.on_device.
    unmonad. cbn. rewrite Hlookup.
    rewrite bool_decide_eq_false_2 by (intros [? ?]; discriminate). done.
Qed.

(** *** Operations on all devices *)

Lemma on_device_ok {A} (cs : Cameras.t) (name : string) (device device' : t)
    (method : M t A) (a : A) (tr : Trace) :
  Cameras.devices cs !! name = Some device → method device = Ok a device' tr →
  Cameras.on_device name method cs =
    Ok a (Cameras.mk (<[name := device']> (Cameras.devices cs))) tr.
Proof. intros Hknown Hmethod. unfold Cameras.on_device. by rewrite Hknown, Hmethod. Qed.

(** A method that returns on every listed device runs on each of them, in
    order, and on nothing else. *)
Lemma for_each_ok (f : t → t) (method : M t unit) (names : list string) (cs : Cameras.t) :
  NoDup names →
  (∀ name, name ∈ names →
     ∃ device tr, Cameras.devices cs !! name = Some device ∧
                  method device = Ok tt (f device) tr) →
  ∃ cs' tr, CamerasAll.for_each names method cs = Ok tt cs' tr ∧
    ∀ name, Cameras.devices cs' !! name =
            if decide (name ∈ names) then f <$> Cameras.devices cs !! name
            else Cameras.devices cs !! name.
Proof.
  revert cs. induction names as [|name names IH]; intros cs Hnodup Hall.
  { exists cs, []. split; [done|]. intros name. by rewrite decide_False by apply not_elem_of_nil. }
  apply NoDup_cons in Hnodup as [Hfresh Hnodup].
  destruct (Hall name) as (device & tr & Hknown & Hmethod); [apply elem_of_cons; by left|].
  set (cs1 := Cameras.mk (<[name := f device]> (Cameras.devices cs))).
  destruct (IH cs1 Hnodup) as (cs' & tr' & Hrest & Hlookup).
  { intros other Hother.
    destruct (Hall other) as (d & tr2 & Hd & Hm); [apply elem_of_cons; by right|].
    exists d, tr2. split; [|done]. cbn. rewrite lookup_insert_ne; [done|].
    intros ->. done. }
  exists cs', (tr ++ tr'). split.
  - cbn [CamerasAll.for_each]. unfold mbind, M_bind.
    rewrite (on_device_ok cs name device (f device) method tt tr Hknown Hmethod).
    fold cs1. by rewrite Hrest.
  - intros other. rewrite Hlookup. cbn.
    destruct (decide (other = name)) as [->|Hne].
    + rewrite decide_False by done. rewrite decide_True by (apply elem_of_cons; by left).
      by rewrite lookup_insert_eq, Hknown.
    + rewrite lookup_insert_ne by done.
      destruct (decide (other ∈ names)).
      * by rewrite decide_True by (apply elem_of_cons; by right).
      * by rewrite decide_False by (rewrite elem_of_cons; intros [|]; done).
Qed.

Lemma for_each_all (f : t → t) (method : M t unit) (names : list string) (cs : Cameras.t) :
  CamerasAll.keys_of cs names →
  (∀ name device, Cameras.devices cs !! name = Some device →
                  ∃ tr, method device = Ok tt (f device) tr) →
  ∃ tr, CamerasAll.for_each names method cs =
        Ok tt (Cameras.mk (f <$> Cameras.devices cs)) tr.
Proof.
  intros [Hnodup Hkeys] Hall.
  destruct (for_each_ok f method names cs Hnodup) as (cs' & tr & Hrun & Hlookup).
  { intros name Hname. apply Hkeys in Hname as [device Hdevice].
    destruct (Hall name device Hdevice) as [tr Hm]. eauto. }
  exists tr. rewrite Hrun. f_equal. destruct cs' as [devices']. f_equal.
  apply map_eq. intros name. cbn in Hlookup. rewrite Hlookup, lookup_fmap.
  destruct (decide (name ∈ names)) as [|Hout]; [done|].
  destruct (Cameras.devices cs !! name) eqn:Hname; [|done].
  exfalso. apply Hout, Hkeys. eauto.
Qed.

Lemma keys_of_fmap (f : t → t) (cs : Cameras.t) (names : list string) :
  CamerasAll.keys_of cs names →
  CamerasAll.keys_of (Cameras.mk (f <$> Cameras.devices cs)) names.
Proof.
  intros [Hnodup Hkeys]. split; [done|]. intros name. cbn.
  rewrite lookup_fmap, fmap_is_Some. apply Hkeys.
Qed.

(** X18. [pauseAll()] and [resumeAll()] return and reach every device of
    the registry: afterwards every device has its pause signal cleared,
    respectively set, and is otherwise as before; [resumeAll()] after
    [pauseAll()] leaves every device resumed. *)
Theorem pause_resume_all (cs : Cameras.t) (names : list string) :
  CamerasAll.keys_of cs names →
  (∃ tr, CamerasAll.pauseAll names cs =
         Ok tt (Cameras.mk (set_pauseEvent false <$> Cameras.devices cs)) tr) ∧
  (∃ tr, CamerasAll.resumeAll names cs =
         Ok tt (Cameras.mk (set_pauseEvent true <$> Cameras.devices cs)) tr) ∧
  (∃ tr, CamerasAll.resumeAll names
           (Cameras.mk (set_pauseEvent false <$> Cameras.devices cs)) =
         Ok tt (Cameras.mk (set_pauseEvent true <$> Cameras.devices cs)) tr).
Proof.
  intros Hkeys.
  assert (∀ (b : bool) (device : t), ∃ tr, (if b then resume else pause) device =
                            Ok tt (set_pauseEvent b device) tr) as Hmethod.
  { intros [] device; eexists; reflexivity. }
  split_and!.
  - apply (for_each_all (set_pauseEvent false) pause); [done|].
    intros name device _. apply (Hmethod false).
  - apply (for_each_all (set_pauseEvent true) resume); [done|].
    intros name device _. apply (Hmethod true).
  - destruct (for_each_all (set_pauseEvent true) resume names
                (Cameras.mk (set_pauseEvent false <$> Cameras.devices cs)))
      as [tr Hrun].
    + by apply keys_of_fmap.
    + intros name device _. apply (Hmethod true).
    + exists tr. unfold CamerasAll.resumeAll. rewrite Hrun. f_equal. f_equal. cbn.
      rewrite <- map_fmap_compose. apply map_fmap_ext. intros name device _.
      by destruct device.
Qed.

Lemma registry_keys : CamerasAll.keys_of registry ["front"].
Proof.
  split; [apply NoDup_singleton|].
  intros name. rewrite list_elem_of_singleton. unfold registry. cbn.
  destruct (decide (name = "front")) as [->|Hne].
  - rewrite lookup_singleton_eq. split; eauto.
  - rewrite lookup_singleton_ne by done. split; [done|]. by intros [? ?].
Qed.

Lemma pause_resume_all_witness :
  CamerasAll.keys_of registry ["front"] ∧
  ∃ tr, CamerasAll.pauseAll ["front"] registry =
        Ok tt (Cameras.mk (set_pauseEvent false <$> Cameras.devices registry)) tr.
Proof.
  split; [apply registry_keys|].
  apply (pause_resume_all registry ["front"] registry_keys).
Defined.

(** X19. [startAll()] on devices that were never started spawns the loop
    thread of every device. Called again, it raises [RuntimeError] at the
    first device of the iteration and leaves the registry as it is: no
    device after the first is reached. *)
Theorem start_all_once (cs : Cameras.t) (names : list string) :
  CamerasAll.keys_of cs names →
  (∀ name device, Cameras.devices cs !! name = Some device → thread device = NotStarted) →
  ∃ tr, CamerasAll.startAll names cs =
          Ok tt (Cameras.mk (set_thread (Started AtEntry) <$> Cameras.devices cs)) tr ∧
        (names ≠ [] →
         CamerasAll.startAll names
           (Cameras.mk (set_thread (Started AtEntry) <$> Cameras.devices cs)) =
         Raise RuntimeError
           (Cameras.mk (set_thread (Started AtEntry) <$> Cameras.devices cs)) []).
Proof.
  intros Hkeys Hfresh.
  destruct (for_each_all (set_thread (Started AtEntry)) start names cs Hkeys) as [tr Hrun].
  { intros name device Hdevice. exists [ThreadStart].
    unfold start, thread_start. by rewrite (Hfresh name device Hdevice). }
  exists tr. split; [exact Hrun|].
  destruct names as [|name names]; [done|]. intros _.
  destruct Hkeys as [_ Hkeys].
  destruct (proj1 (Hkeys name)) as [device Hdevice]; [apply elem_of_cons; by left|].
  unfold CamerasAll.startAll. cbn [CamerasAll.for_each]. unfold mbind, M_bind.
  unfold Cameras.on_device. cbn. rewrite lookup_fmap, Hdevice. cbn.
  f_equal. f_equal. apply insert_id. by rewrite lookup_fmap, Hdevice.
Qed.

Lemma fresh_registry_keys : CamerasAll.keys_of fresh_registry ["front"; "rear"].
Proof.
  split.
  - apply NoDup_cons. split; [by rewrite list_elem_of_singleton|]. apply NoDup_singleton.
  - intros name. unfold fresh_registry. cbn.
    destruct (decide (name = "front")) as [->|Hfront].
    { rewrite lookup_insert_eq. split; [eauto | intros _; apply elem_of_cons; by left]. }
    rewrite lookup_insert_ne by done.
    destruct (decide (name = "rear")) as [->|Hrear].
    { rewrite lookup_singleton_eq.
      split; [eauto | intros _; apply elem_of_cons; right; by apply list_elem_of_singleton]. }
    rewrite lookup_singleton_ne by done.
    split; [|by intros [? ?]].
    rewrite elem_of_cons, list_elem_of_singleton. by intros [|].
Qed.

Lemma fresh_registry_not_started name device :
  Cameras.devices fresh_registry !! name = Some device → thread device = NotStarted.
Proof.
  unfold fresh_registry. cbn.
  destruct (decide (name = "front")) as [->|Hfront].
  { rewrite lookup_insert_eq. by intros [= <-]. }
  rewrite lookup_insert_ne by done.
  destruct (decide (name = "rear")) as [->|Hrear].
  { rewrite lookup_singleton_eq. by intros [= <-]. }
  by rewrite lookup_singleton_ne.
Qed.

Lemma start_all_once_witness :
  CamerasAll.keys_of fresh_registry ["front"; "rear"] ∧
  ∃ tr, CamerasAll.startAll ["front"; "rear"] fresh_registry =
        Ok tt (Cameras.mk (set_thread (Started AtEntry) <$> Cameras.devices fresh_registry))
           tr.
Proof.
  split; [apply fresh_registry_keys|].
  destruct (start_all_once fresh_registry ["front"; "rear"] fresh_registry_keys
              fresh_registry_not_started) as (tr & Hrun & _).
  by exists tr.
Defined.

Lemma stop_idle (s : t) (patience : nat) :
  running s = false →
  ∃ tr, stop patience s = Ok tt (set_readLock false (set_pauseEvent true s)) tr.
Proof.
  intros Hrun. unfold stop, resume, event_set, lock_release. unmonad.
  destruct s. cbn in *. subst. destruct readLock0; cbn; eauto.
Qed.

(** X20. [stopAll()] on devices none of which is running (never started, or
    already stopped) returns, joins nothing, and leaves every device with
    its pause signal set and its lock free. *)
Theorem stop_all_idle (cs : Cameras.t) (names : list string) (patience : nat) :
  CamerasAll.keys_of cs names →
  (∀ name device, Cameras.devices cs !! name = Some device → running device = false) →
  ∃ tr, CamerasAll.stopAll patience names cs =
        Ok tt (Cameras.mk ((λ device, set_readLock false (set_pauseEvent true device))
                             <$> Cameras.devices cs)) tr.
Proof.
  intros Hkeys Hidle.
  apply (for_each_all (λ device, set_readLock false (set_pauseEvent true device))
           (stop patience)); [done|].
  intros name device Hdevice. apply stop_idle. by eapply Hidle.
Qed.

Lemma stop_all_idle_witness :
  CamerasAll.keys_of fresh_registry ["front"; "rear"] ∧
  result_state (CamerasAll.stopAll 1 ["front"; "rear"] fresh_registry) =
    Cameras.mk ((λ device, set_readLock false (set_pauseEvent true device))
                  <$> Cameras.devices fresh_registry).
Proof.
  split; [apply fresh_registry_keys|].
  destruct (stop_all_idle fresh_registry ["front"; "rear"] 1 fresh_registry_keys) as [tr Hrun].
  { intros name device Hdevice.
    pose proof (fresh_registry_not_started name device Hdevice) as Hth.
    unfold fresh_registry in Hdevice. cbn in Hdevice.
    destruct (decide (name = "front")) as [->|Hfront].
    { rewrite lookup_insert_eq in Hdevice. by injection Hdevice as <-. }
    rewrite lookup_insert_ne in Hdevice by done.
    destruct (decide (name = "rear")) as [->|Hrear].
    { rewrite lookup_singleton_eq in Hdevice. by injection Hdevice as <-. }
    by rewrite lookup_singleton_ne in Hdevice. }
  by rewrite Hrun.
Defined.

Lemma collect_getter {A} (g : t → A) (names : list string) (cs : Cameras.t) :
  (∀ name, name ∈ names → is_Some (Cameras.devices cs !! name)) →
  ∃ values, CamerasAll.collect names (gets g) cs = Ok values cs [] ∧
            Forall2 (λ name value, ∃ device, Cameras.devices cs !! name = Some device ∧
                                             value = g device) names values.
Proof.
  induction names as [|name names IH]; intros Hall.
  { exists []. split; [done | constructor]. }
  destruct (Hall name) as [device Hdevice]; [apply elem_of_cons; by left|].
  destruct IH as (values & Hrest & Hvalues);
    [intros ? ?; apply Hall, elem_of_cons; by right|].
  exists (g device :: values). split.
  - cbn [CamerasAll.collect]. unfold mbind, M_bind.
    rewrite (on_device_ok cs name device device (gets g) (g device) [] Hdevice eq_refl).
    rewrite insert_id by done.
    replace (Cameras.mk (Cameras.devices cs)) with cs by (by destruct cs).
    by rewrite Hrest.
  - constructor; [eauto | done].
Qed.

(** X21. [getAllFrames(asDict=False)] returns the current frame of every
    device, in the order of the registry, and changes nothing;
    [getAllFrames64(asDict=False)] returns the very same list of frames,
    not the secondary encodings. *)
Theorem all_frames_as_list (cs : Cameras.t) (names : list string) :
  CamerasAll.keys_of cs names →
  ∃ frames,
    CamerasAll.getAllFrames names false cs = Ok (inr frames) cs [] ∧
    CamerasAll.getAllFrames64 names false cs = Ok (inr frames) cs [] ∧
    Forall2 (λ name frame, ∃ device, Cameras.devices cs !! name = Some device ∧
                                     frame = getFrame device) names frames.
Proof.
  intros [_ Hkeys].
  destruct (collect_getter getFrame names cs) as (frames & Hrun & Hframes).
  { intros name Hname. by apply Hkeys. }
  exists frames. unfold CamerasAll.getAllFrames, CamerasAll.getAllFrames64, mbind, M_bind.
  rewrite Hrun. done.
Qed.

Lemma all_frames_as_list_witness :
  CamerasAll.keys_of registry ["front"] ∧
  CamerasAll.getAllFrames64 ["front"] false registry = Ok (inr [Some (Raw 0)]) registry [].
Proof.
  split; [apply registry_keys|].
  destruct (all_frames_as_list registry ["front"] registry_keys)
    as (frames & _ & Hrun & Hframes).
  rewrite Hrun. do 2 f_equal.
  apply Forall2_cons_inv_l in Hframes as (frame & rest & (device & Hdevice & ->) & Hrest & ->).
  apply Forall2_nil_inv_l in Hrest as ->.
  unfold registry in Hdevice. cbn in Hdevice. rewrite lookup_singleton_eq in Hdevice.
  by injection Hdevice as <-.
Defined.


(** A dict built from one pair per device, keyed by the device's key, is the
    registry's mapping with [g] applied to every device. *)
Lemma to_dict_of_devices {A} (g : t → A) (names : list string) (cs : Cameras.t)
    (pairs : list (string * A)) :
  CamerasAll.keys_of cs names →
  Forall2 (λ name pair, ∃ device, Cameras.devices cs !! name = Some device ∧
                                  pair = (name, g device)) names pairs →
  CamerasAll.to_dict pairs = g <$> Cameras.devices cs.
Proof.
  intros [Hnodup Hkeys] Hpairs.
  assert (pairs.*1 = names) as Hfst.
  { clear Hnodup Hkeys.
    induction Hpairs as [|name pair names pairs (device & _ & ->) _ IH]; [done|].
    cbn. by rewrite IH. }
  assert (NoDup (reverse pairs).*1) as Hnodup'.
  { rewrite fmap_reverse, Hfst. by rewrite reverse_Permutation. }
  unfold CamerasAll.to_dict. apply map_eq. intros key. rewrite lookup_fmap.
  destruct (Cameras.devices cs !! key) as [device|] eqn:Hdevice; cbn.
  - apply elem_of_list_to_map_1; [done|]. apply elem_of_reverse.
    assert (key ∈ names) as Hin by (apply Hkeys; eauto).
    clear Hfst Hnodup' Hnodup Hkeys.
    induction Hpairs as [|name pair names pairs (d & Hd & ->) _ IH].
    + by apply elem_of_nil in Hin.
    + apply elem_of_cons in Hin as [->|Hin].
      * apply elem_of_cons. left. congruence.
      * apply elem_of_cons. right. by apply IH.
  - apply not_elem_of_list_to_map_1. rewrite fmap_reverse, Hfst, elem_of_reverse.
    intros Hin. apply Hkeys in Hin as [? Hin]. congruence.
Qed.

(** X22. When every device carries its registry key as its name (as the
    constructor of the registry makes them), [getAllFrames()] returns the
    registry's mapping with every device replaced by its current frame: the
    keys are exactly the registry's names; the registry is unchanged. *)
Theorem all_frames_as_dict (cs : Cameras.t) (names : list string) :
  CamerasAll.keys_of cs names →
  (∀ name device, Cameras.devices cs !! name = Some device → getName device = name) →
  CamerasAll.getAllFrames names true cs = Ok (inl (getFrame <$> Cameras.devices cs)) cs [] ∧
  CamerasAll.getAllFrames64 names true cs =
    Ok (inl (getFrame64 <$> Cameras.devices cs)) cs [].
Proof.
  intros Hkeys Hnames.
  assert (∀ A (g : t → A),
            ∃ pairs, CamerasAll.collect names (gets (λ device, (getName device, g device))) cs =
                     Ok pairs cs [] ∧
                     CamerasAll.to_dict pairs = g <$> Cameras.devices cs) as Hcollect.
  { intros A g.
    destruct (collect_getter (λ device, (getName device, g device)) names cs)
      as (pairs & Hrun & Hpairs).
    { intros name Hname. by apply Hkeys. }
    exists pairs. split; [done|]. apply (to_dict_of_devices g names); [done|].
    eapply Forall2_impl; [exact Hpairs|]. cbn.
    intros name pair (device & Hdevice & ->). exists device. split; [done|].
    by rewrite (Hnames name device Hdevice). }
  unfold CamerasAll.getAllFrames, CamerasAll.getAllFrames64, mbind, M_bind.
  destruct (Hcollect _ getFrame) as (pairs & -> & Hdict).
  destruct (Hcollect _ getFrame64) as (pairs64 & -> & Hdict64).
  cbn. by rewrite Hdict, Hdict64.
Qed.

Lemma registry_names name device :
  Cameras.devices named_registry !! name = Some device → getName device = name.
Proof.
  unfold named_registry. cbn.
  destruct (decide (name = "default")) as [->|Hne].
  - rewrite lookup_singleton_eq. by intros [= <-].
  - by rewrite lookup_singleton_ne.
Qed.

Lemma named_registry_keys : CamerasAll.keys_of named_registry ["default"].
Proof.
  split; [apply NoDup_singleton|].
  intros name. rewrite list_elem_of_singleton. unfold named_registry. cbn.
  destruct (decide (name = "default")) as [->|Hne].
  - rewrite lookup_singleton_eq. split; eauto.
  - rewrite lookup_singleton_ne by done. split; [done|]. by intros [? ?].
Qed.

Lemma all_frames_as_dict_witness :
  CamerasAll.keys_of named_registry ["default"] ∧
  CamerasAll.getAllFrames ["default"] true named_registry =
    Ok (inl (getFrame <$> Cameras.devices named_registry)) named_registry [].
Proof.
  split; [apply named_registry_keys|].
  apply (all_frames_as_dict named_registry ["default"] named_registry_keys registry_names).
Defined.





(** *** The queue never overflows *)

Lemma capacity_respected_stable : stable capacity_respected.
Proof. by split. Qed.

Lemma capacity_respected_put item : preserves capacity_respected (queue_put item).
Proof.
  intros s Hs. unfold queue_put.
  destruct (full (queue s)) eqn:Hfull; [done|].
  apply not_full_iff in Hfull. destruct s. unfold capacity_respected. cbn in *.
  intros Hpos. rewrite length_app, Nat2Z.inj_add. cbn [length]. lia.
Qed.

Lemma capacity_respected_get item rest (s : t) :
  items (queue s) = item :: rest → capacity_respected s →
  capacity_respected (set_queue (mkQueue (maxsize (queue s)) rest) s).
Proof.
  intros Hitems Hs. destruct s. unfold capacity_respected in *. cbn in *.
  intros Hpos. specialize (Hs Hpos). rewrite Hitems, length_cons in Hs. lia.
Qed.

Lemma capacity_respected_setSpeed rate : preserves capacity_respected (setSpeed rate).
Proof.
  intros s Hs. unfold setSpeed, one_over. unmonad.
  destruct rate as [n|]; cbn; [|done]. by destruct (n =? 0).
Qed.

Lemma capacity_respected_init gts a world s tr :
  __init__ gts a world = Ok tt s tr → capacity_respected s.
Proof.
  intros Hinit.
  change s with (result_state (Ok tt s tr : Result t unit)). rewrite <- Hinit.
  apply (init_keeps capacity_respected_stable); [done..|].
  unfold capacity_respected. cbn. lia.
Qed.

(** X24. The queue never overflows: in every state a device can reach, by
    any calls of its methods by clients, any steps of its loop and any
    continuation of a suspended call, a queue of capacity [K > 0] holds at
    most [K] samples. *)
Theorem queue_never_overflows (s : t) :
  reachable s → 0 < maxsize (queue s) →
  Z.of_nat (length (items (queue s))) ≤ maxsize (queue s).
Proof.
  intros Hs. revert s Hs.
  apply (reachable_invariant (P := capacity_respected)).
  - apply capacity_respected_stable.
  - apply capacity_respected_put.
  - apply capacity_respected_get.
  - apply capacity_respected_setSpeed.
  - apply capacity_respected_init.
Qed.

Lemma queue_never_overflows_witness :
  reachable jammed_camera ∧ queueModeEnabled jammed_camera = true ∧
  maxsize (queue jammed_camera) = 1 ∧ items (queue jammed_camera) = [Some (Raw 0)] ∧
  thread jammed_camera = Started (Blocked (WaitPut (Some (Raw 1)))) ∧
  Z.of_nat (length (items (queue jammed_camera))) ≤ maxsize (queue jammed_camera).
Proof.
  assert (0 < maxsize (queue jammed_camera)) as Hpos by (simpl; lia).
  split; [apply jammed_camera_reachable|].
  do 4 (split; [reflexivity|]).
  apply (queue_never_overflows jammed_camera jammed_camera_reachable Hpos).
Defined.

(** *** The acquisition lock *)

(** X25. The acquisition lock can be left held. [update()] acquires the
    lock before it reads the handle and releases it only at its end, with
    no handler in between. Called on a device that has no handle yet
    (before [start()]), it raises [AttributeError] holding the lock, and a
    second [update()] then waits for the lock. When the configured size
    cannot be resized to, [cv2.resize] raises in the acquisition step: the
    grabbed image is lost, the stored frame is unchanged, and the loop
    thread dies holding the lock with the read event cleared; [stop()]
    then frees the lock and returns, the handle still opened. *)
Theorem failed_update_keeps_lock (s : t) :
  readLock s = false →
  (device s = None →
   update s = Raise AttributeError (set_readLock true (set_readEvent false s))
                [EventClear ReadEvent; LockAcquire] ∧
   update (set_readLock true (set_readEvent false s)) =
     Block WaitLock (set_readLock true (set_readEvent false s)) [EventClear ReadEvent]) ∧
  (∀ grabbed rest,
     device s = Some (mkCapture true (Delivers grabbed :: rest)) → ¬ resizable s →
     update s =
       Raise Cv2Error
         (set_device (Some (mkCapture true rest)) (set_readLock true (set_readEvent false s)))
         [EventClear ReadEvent; LockAcquire; DeviceRead true] ∧
     (thread s = Started AtLoop → running s = true →
      let s' := (thread_step s).1 in
      thread s' = Crashed Cv2Error ∧ readLock s' = true ∧ readEvent s' = false ∧
      frame s' = frame s ∧ thread_step s' = (s', []) ∧
      ∀ patience,
        ∃ s'', stop patience s' =
                 Ok tt s'' [EventSet PauseEvent; LockRelease; EventClear Running] ∧
               readLock s'' = false ∧ thread s'' = Crashed Cv2Error ∧
               isConnected s'' = true)).
Proof.
  intros Hlock. split.
  - intros Hdev.
    unfold update, update_acquired, event_clear, lock_acquire, device_read. unmonad.
    destruct s. cbn in *. subst. done.
  - intros grabbed rest Hdev Hsize.
    assert (update s =
              Raise Cv2Error
                (set_device (Some (mkCapture true rest))
                   (set_readLock true (set_readEvent false s)))
                [EventClear ReadEvent; LockAcquire; DeviceRead true]) as Hupdate.
    { pose proof (preprocess_fails
                    (set_device (Some (mkCapture true rest))
                       (set_readLock true (set_readEvent false s))) grabbed) as Hpre.
      unfold update, update_acquired, event_clear, lock_acquire, device_read. unmonad.
      unfold resizable in *.
      destruct s. cbn -[preprocess] in *. subst. cbn -[preprocess].
      by rewrite Hpre. }
    split; [done|].
    intros Hth Hrun.
    assert (thread_step s =
              (set_thread (Crashed Cv2Error)
                 (set_device (Some (mkCapture true rest))
                    (set_readLock true (set_readEvent false s))),
               [EventClear ReadEvent; LockAcquire; DeviceRead true])) as Hstep.
    { unfold thread_step. rewrite Hth, Hrun.
      unfold run_body. unfold mbind at 1, M_bind at 1. unfold gets at 1. cbn [prepend app].
      assert (isConnected s = true) as -> by (unfold isConnected; by rewrite Hdev).
      unfold mbind at 1, M_bind at 1. by rewrite Hupdate. }
    intros s'. subst s'. rewrite Hstep. clear Hstep Hupdate.
    unfold thread_step, stop, resume, lock_release, event_clear, event_set, isConnected.
    unmonad.
    destruct s. cbn in *. subst. cbn.
    split_and!; try done.
    intros patience. destruct patience; cbn; eexists; (split; [reflexivity|]); done.
Qed.

Lemma failed_update_keeps_lock_witness :
  readLock default_camera = false ∧ device default_camera = None ∧
  (∃ s', update default_camera = Raise AttributeError s' [EventClear ReadEvent; LockAcquire] ∧
         readLock s' = true ∧ update s' = Block WaitLock s' [EventClear ReadEvent]) ∧
  size warped_camera = Some (PyTuple [0; 0]) ∧
  thread (thread_step warped_camera).1 = Crashed Cv2Error ∧
  readLock (thread_step warped_camera).1 = true ∧
  frame (thread_step warped_camera).1 = None.
Proof.
  split; [reflexivity|]. split; [reflexivity|].
  destruct (failed_update_keeps_lock default_camera eq_refl) as [Hnone _].
  destruct (Hnone eq_refl) as [Hraise Hblock].
  split. { eexists. split; [exact Hraise|]. split; [reflexivity | exact Hblock]. }
  split; [reflexivity|].
  destruct (failed_update_keeps_lock warped_camera eq_refl) as [_ Hsize].
  destruct (Hsize (Raw 0) [Delivers (Raw 1); Delivers (Raw 2); Delivers (Raw 3);
                            Delivers (Raw 4)] eq_refl) as [_ Hloop].
  { intros (w & h & Htake & Hw & Hh). injection Htake as <- <-. lia. }
  destruct (Hloop eq_refl eq_refl) as (Hth & Hlock & _ & Hframe & _).
  split; [exact Hth|]. split; [exact Hlock | exact Hframe].
Defined.
